(** * A notes organizer: data access layer and reactive store

    Shallow embedding of [services/api.ts], [types.ts] and [state/store.ts]
    of the notes front-end, and the properties of its specification.

    Conventions of the embedding.
    - A JavaScript string is well-formed Unicode text, kept as the [string]
      of its UTF-8 bytes: two texts are equal, or one occurs in the other,
      exactly when that holds of their bytes.  [toLowerCase] is the
      conversion of the Unicode standard (version 14.0): the lower-case
      mappings of [UnicodeData.txt], the two-character lower case of
      [U+0130] and the rule for a capital sigma at the end of a word.
    - A timestamp is the integer number of milliseconds that
      [+new Date(iso)] gives for the ISO text [iso]; [toISOString] and
      [new Date] are inverse to each other at that precision, so the text
      form is not kept.  Stored timestamps are taken to be such texts.
    - The browser is a [World]: the storage slot under [STORAGE_KEY], the
      successive readings of the wall clock, the successive values of
      [(Math.random() * 16) | 0], and the number of requests sent so far.
    - An [async] function is a computation in the monad [M]: it threads the
      state and either returns a value or throws.  Awaited calls run one
      after the other; the one call that the source does not await, the
      [refresh] inside [setQuery], is split at its [await]. *)

From Stdlib Require Import ZArith String Ascii List Lia.
From Stdlib Require Import Sorting.Sorted Sorting.Permutation.
From stdpp Require Import base decidable option list strings.

Open Scope string_scope.
Open Scope list_scope.
Open Scope Z_scope.

(* ===================================================================== *)
(** ** JavaScript primitives used by the code *)
(* ===================================================================== *)

(** [s.startsWith(q)]. *)
Fixpoint startsWith (s q : string) {struct q} : bool :=
  match q, s with
  | EmptyString, _ => true
  | String _ _, EmptyString => false
  | String a q', String b s' => if decide (a = b) then startsWith s' q' else false
  end.

(** [s.includes(q)]: [q] occurs in [s] at some position. *)
Fixpoint includes (s q : string) : bool :=
  startsWith s q ||
  match s with
  | EmptyString => false
  | String _ s' => includes s' q
  end.

(** *** Letter case *)

(** [toLowerCase] works on code points: the text is read as code points,
    each code point is put in lower case where it stands, and the result
    is written back as text. *)

(** The number of a byte, and the byte of a number. *)
Definition byte_code (c : ascii) : Z := Z.of_N (N_of_ascii c).
Definition code_byte (z : Z) : ascii := ascii_of_N (Z.to_N z).

(** A byte of the form [10xxxxxx], and its six bits. *)
Definition continues (c : ascii) : bool :=
  (0x80 <=? byte_code c) && (byte_code c <? 0xC0).
Definition low6 (c : ascii) : Z := Z.land (byte_code c) 0x3F.

(** A byte that is not part of a well-formed sequence is kept as a number
    above the code points, so that it can be written back. *)
Definition stray : Z := 0x110000.

(** The code points of a text. *)
Fixpoint code_points (s : string) : list Z :=
  match s with
  | EmptyString => []
  | String b1 r1 =>
      let n := byte_code b1 in
      if n <? 0x80 then n :: code_points r1
      else
        match r1 with
        | EmptyString => [stray + n]
        | String b2 r2 =>
            if (0xC0 <=? n) && (n <? 0xE0) && continues b2 then
              Z.lor (Z.shiftl (Z.land n 0x1F) 6) (low6 b2) :: code_points r2
            else
              match r2 with
              | EmptyString => stray + n :: code_points r1
              | String b3 r3 =>
                  if (0xE0 <=? n) && (n <? 0xF0) && continues b2 && continues b3 then
                    Z.lor (Z.shiftl (Z.land n 0x0F) 12)
                      (Z.lor (Z.shiftl (low6 b2) 6) (low6 b3)) :: code_points r3
                  else
                    match r3 with
                    | EmptyString => stray + n :: code_points r1
                    | String b4 r4 =>
                        if (0xF0 <=? n) && (n <? 0xF8) && continues b2 && continues b3
                           && continues b4 then
                          Z.lor (Z.shiftl (Z.land n 0x07) 18)
                            (Z.lor (Z.shiftl (low6 b2) 12)
                               (Z.lor (Z.shiftl (low6 b3) 6) (low6 b4))) :: code_points r4
                        else stray + n :: code_points r1
                    end
              end
        end
  end.

(** The bytes of a code point. *)
Definition utf8 (c : Z) : string :=
  let tail (k : Z) := code_byte (Z.lor 0x80 (Z.land (Z.shiftr c k) 0x3F)) in
  if c <? 0x80 then String (code_byte c) EmptyString
  else if c <? 0x800 then
    String (code_byte (Z.lor 0xC0 (Z.shiftr c 6))) (String (tail 0) EmptyString)
  else if c <? 0x10000 then
    String (code_byte (Z.lor 0xE0 (Z.shiftr c 12)))
      (String (tail 6) (String (tail 0) EmptyString))
  else if c <? stray then
    String (code_byte (Z.lor 0xF0 (Z.shiftr c 18)))
      (String (tail 12) (String (tail 6) (String (tail 0) EmptyString)))
  else String (code_byte (c - stray)) EmptyString.

(** The text of a sequence of code points. *)
Fixpoint text (l : list Z) : string :=
  match l with
  | [] => EmptyString
  | c :: r => utf8 c +:+ text r
  end.

(** The simple lower-case mappings of [UnicodeData.txt] above the ASCII
    range: every [step]-th code point from [first] to [last] is moved by
    [by]. *)
Definition lower_table : list (Z * Z * Z * Z) :=
  [
    (0xC0, 0xD6, 1, 32); (0xD8, 0xDE, 1, 32); (0x100, 0x12E, 2, 1);
    (0x132, 0x136, 2, 1); (0x139, 0x147, 2, 1); (0x14A, 0x176, 2, 1);
    (0x178, 0x178, 1, (-121)); (0x179, 0x17D, 2, 1); (0x181, 0x181, 1, 210);
    (0x182, 0x184, 2, 1); (0x186, 0x186, 1, 206); (0x187, 0x187, 1, 1);
    (0x189, 0x18A, 1, 205); (0x18B, 0x18B, 1, 1); (0x18E, 0x18E, 1, 79);
    (0x18F, 0x18F, 1, 202); (0x190, 0x190, 1, 203); (0x191, 0x191, 1, 1);
    (0x193, 0x193, 1, 205); (0x194, 0x194, 1, 207); (0x196, 0x196, 1, 211);
    (0x197, 0x197, 1, 209); (0x198, 0x198, 1, 1); (0x19C, 0x19C, 1, 211);
    (0x19D, 0x19D, 1, 213); (0x19F, 0x19F, 1, 214); (0x1A0, 0x1A4, 2, 1);
    (0x1A6, 0x1A6, 1, 218); (0x1A7, 0x1A7, 1, 1); (0x1A9, 0x1A9, 1, 218);
    (0x1AC, 0x1AC, 1, 1); (0x1AE, 0x1AE, 1, 218); (0x1AF, 0x1AF, 1, 1);
    (0x1B1, 0x1B2, 1, 217); (0x1B3, 0x1B5, 2, 1); (0x1B7, 0x1B7, 1, 219);
    (0x1B8, 0x1B8, 1, 1); (0x1BC, 0x1BC, 1, 1); (0x1C4, 0x1C4, 1, 2);
    (0x1C5, 0x1C5, 1, 1); (0x1C7, 0x1C7, 1, 2); (0x1C8, 0x1C8, 1, 1);
    (0x1CA, 0x1CA, 1, 2); (0x1CB, 0x1DB, 2, 1); (0x1DE, 0x1EE, 2, 1);
    (0x1F1, 0x1F1, 1, 2); (0x1F2, 0x1F4, 2, 1); (0x1F6, 0x1F6, 1, (-97));
    (0x1F7, 0x1F7, 1, (-56)); (0x1F8, 0x21E, 2, 1); (0x220, 0x220, 1, (-130));
    (0x222, 0x232, 2, 1); (0x23A, 0x23A, 1, 10795); (0x23B, 0x23B, 1, 1);
    (0x23D, 0x23D, 1, (-163)); (0x23E, 0x23E, 1, 10792); (0x241, 0x241, 1, 1);
    (0x243, 0x243, 1, (-195)); (0x244, 0x244, 1, 69); (0x245, 0x245, 1, 71);
    (0x246, 0x24E, 2, 1); (0x370, 0x372, 2, 1); (0x376, 0x376, 1, 1);
    (0x37F, 0x37F, 1, 116); (0x386, 0x386, 1, 38); (0x388, 0x38A, 1, 37);
    (0x38C, 0x38C, 1, 64); (0x38E, 0x38F, 1, 63); (0x391, 0x3A1, 1, 32);
    (0x3A3, 0x3AB, 1, 32); (0x3CF, 0x3CF, 1, 8); (0x3D8, 0x3EE, 2, 1);
    (0x3F4, 0x3F4, 1, (-60)); (0x3F7, 0x3F7, 1, 1); (0x3F9, 0x3F9, 1, (-7));
    (0x3FA, 0x3FA, 1, 1); (0x3FD, 0x3FF, 1, (-130)); (0x400, 0x40F, 1, 80);
    (0x410, 0x42F, 1, 32); (0x460, 0x480, 2, 1); (0x48A, 0x4BE, 2, 1);
    (0x4C0, 0x4C0, 1, 15); (0x4C1, 0x4CD, 2, 1); (0x4D0, 0x52E, 2, 1);
    (0x531, 0x556, 1, 48); (0x10A0, 0x10C5, 1, 7264); (0x10C7, 0x10C7, 1, 7264);
    (0x10CD, 0x10CD, 1, 7264); (0x13A0, 0x13EF, 1, 38864); (0x13F0, 0x13F5, 1, 8);
    (0x1C90, 0x1CBA, 1, (-3008)); (0x1CBD, 0x1CBF, 1, (-3008)); (0x1E00, 0x1E94, 2, 1);
    (0x1E9E, 0x1E9E, 1, (-7615)); (0x1EA0, 0x1EFE, 2, 1); (0x1F08, 0x1F0F, 1, (-8));
    (0x1F18, 0x1F1D, 1, (-8)); (0x1F28, 0x1F2F, 1, (-8)); (0x1F38, 0x1F3F, 1, (-8));
    (0x1F48, 0x1F4D, 1, (-8)); (0x1F59, 0x1F5F, 2, (-8)); (0x1F68, 0x1F6F, 1, (-8));
    (0x1F88, 0x1F8F, 1, (-8)); (0x1F98, 0x1F9F, 1, (-8)); (0x1FA8, 0x1FAF, 1, (-8));
    (0x1FB8, 0x1FB9, 1, (-8)); (0x1FBA, 0x1FBB, 1, (-74)); (0x1FBC, 0x1FBC, 1, (-9));
    (0x1FC8, 0x1FCB, 1, (-86)); (0x1FCC, 0x1FCC, 1, (-9)); (0x1FD8, 0x1FD9, 1, (-8));
    (0x1FDA, 0x1FDB, 1, (-100)); (0x1FE8, 0x1FE9, 1, (-8)); (0x1FEA, 0x1FEB, 1, (-112));
    (0x1FEC, 0x1FEC, 1, (-7)); (0x1FF8, 0x1FF9, 1, (-128)); (0x1FFA, 0x1FFB, 1, (-126));
    (0x1FFC, 0x1FFC, 1, (-9)); (0x2126, 0x2126, 1, (-7517)); (0x212A, 0x212A, 1, (-8383));
    (0x212B, 0x212B, 1, (-8262)); (0x2132, 0x2132, 1, 28); (0x2160, 0x216F, 1, 16);
    (0x2183, 0x2183, 1, 1); (0x24B6, 0x24CF, 1, 26); (0x2C00, 0x2C2F, 1, 48);
    (0x2C60, 0x2C60, 1, 1); (0x2C62, 0x2C62, 1, (-10743)); (0x2C63, 0x2C63, 1, (-3814));
    (0x2C64, 0x2C64, 1, (-10727)); (0x2C67, 0x2C6B, 2, 1); (0x2C6D, 0x2C6D, 1, (-10780));
    (0x2C6E, 0x2C6E, 1, (-10749)); (0x2C6F, 0x2C6F, 1, (-10783)); (0x2C70, 0x2C70, 1, (-10782));
    (0x2C72, 0x2C72, 1, 1); (0x2C75, 0x2C75, 1, 1); (0x2C7E, 0x2C7F, 1, (-10815));
    (0x2C80, 0x2CE2, 2, 1); (0x2CEB, 0x2CED, 2, 1); (0x2CF2, 0x2CF2, 1, 1);
    (0xA640, 0xA66C, 2, 1); (0xA680, 0xA69A, 2, 1); (0xA722, 0xA72E, 2, 1);
    (0xA732, 0xA76E, 2, 1); (0xA779, 0xA77B, 2, 1); (0xA77D, 0xA77D, 1, (-35332));
    (0xA77E, 0xA786, 2, 1); (0xA78B, 0xA78B, 1, 1); (0xA78D, 0xA78D, 1, (-42280));
    (0xA790, 0xA792, 2, 1); (0xA796, 0xA7A8, 2, 1); (0xA7AA, 0xA7AA, 1, (-42308));
    (0xA7AB, 0xA7AB, 1, (-42319)); (0xA7AC, 0xA7AC, 1, (-42315)); (0xA7AD, 0xA7AD, 1, (-42305));
    (0xA7AE, 0xA7AE, 1, (-42308)); (0xA7B0, 0xA7B0, 1, (-42258)); (0xA7B1, 0xA7B1, 1, (-42282));
    (0xA7B2, 0xA7B2, 1, (-42261)); (0xA7B3, 0xA7B3, 1, 928); (0xA7B4, 0xA7C2, 2, 1);
    (0xA7C4, 0xA7C4, 1, (-48)); (0xA7C5, 0xA7C5, 1, (-42307)); (0xA7C6, 0xA7C6, 1, (-35384));
    (0xA7C7, 0xA7C9, 2, 1); (0xA7D0, 0xA7D0, 1, 1); (0xA7D6, 0xA7D8, 2, 1);
    (0xA7F5, 0xA7F5, 1, 1); (0xFF21, 0xFF3A, 1, 32); (0x10400, 0x10427, 1, 40);
    (0x104B0, 0x104D3, 1, 40); (0x10570, 0x1057A, 1, 39); (0x1057C, 0x1058A, 1, 39);
    (0x1058C, 0x10592, 1, 39); (0x10594, 0x10595, 1, 39); (0x10C80, 0x10CB2, 1, 64);
    (0x118A0, 0x118BF, 1, 32); (0x16E40, 0x16E5F, 1, 32); (0x1E900, 0x1E921, 1, 34)
  ].

(** The code points above the ASCII range with the property [Cased] and
    without the property [Case_Ignorable], as ranges. *)
Definition cased_table : list (Z * Z) :=
  [
    (0xAA, 0xAA); (0xB5, 0xB5); (0xBA, 0xBA); (0xC0, 0xD6);
    (0xD8, 0xF6); (0xF8, 0x1BA); (0x1BC, 0x1BF); (0x1C4, 0x293);
    (0x295, 0x2AF); (0x370, 0x373); (0x376, 0x377); (0x37B, 0x37D);
    (0x37F, 0x37F); (0x386, 0x386); (0x388, 0x38A); (0x38C, 0x38C);
    (0x38E, 0x3A1); (0x3A3, 0x3F5); (0x3F7, 0x481); (0x48A, 0x52F);
    (0x531, 0x556); (0x560, 0x588); (0x10A0, 0x10C5); (0x10C7, 0x10C7);
    (0x10CD, 0x10CD); (0x10D0, 0x10FA); (0x10FD, 0x10FF); (0x13A0, 0x13F5);
    (0x13F8, 0x13FD); (0x1C80, 0x1C88); (0x1C90, 0x1CBA); (0x1CBD, 0x1CBF);
    (0x1D00, 0x1D2B); (0x1D6B, 0x1D77); (0x1D79, 0x1D9A); (0x1E00, 0x1F15);
    (0x1F18, 0x1F1D); (0x1F20, 0x1F45); (0x1F48, 0x1F4D); (0x1F50, 0x1F57);
    (0x1F59, 0x1F59); (0x1F5B, 0x1F5B); (0x1F5D, 0x1F5D); (0x1F5F, 0x1F7D);
    (0x1F80, 0x1FB4); (0x1FB6, 0x1FBC); (0x1FBE, 0x1FBE); (0x1FC2, 0x1FC4);
    (0x1FC6, 0x1FCC); (0x1FD0, 0x1FD3); (0x1FD6, 0x1FDB); (0x1FE0, 0x1FEC);
    (0x1FF2, 0x1FF4); (0x1FF6, 0x1FFC); (0x2102, 0x2102); (0x2107, 0x2107);
    (0x210A, 0x2113); (0x2115, 0x2115); (0x2119, 0x211D); (0x2124, 0x2124);
    (0x2126, 0x2126); (0x2128, 0x2128); (0x212A, 0x212D); (0x212F, 0x2134);
    (0x2139, 0x2139); (0x213C, 0x213F); (0x2145, 0x2149); (0x214E, 0x214E);
    (0x2160, 0x217F); (0x2183, 0x2184); (0x24B6, 0x24E9); (0x2C00, 0x2C7B);
    (0x2C7E, 0x2CE4); (0x2CEB, 0x2CEE); (0x2CF2, 0x2CF3); (0x2D00, 0x2D25);
    (0x2D27, 0x2D27); (0x2D2D, 0x2D2D); (0xA640, 0xA66D); (0xA680, 0xA69B);
    (0xA722, 0xA76F); (0xA771, 0xA787); (0xA78B, 0xA78E); (0xA790, 0xA7CA);
    (0xA7D0, 0xA7D1); (0xA7D3, 0xA7D3); (0xA7D5, 0xA7D9); (0xA7F5, 0xA7F6);
    (0xA7FA, 0xA7FA); (0xAB30, 0xAB5A); (0xAB60, 0xAB68); (0xAB70, 0xABBF);
    (0xFB00, 0xFB06); (0xFB13, 0xFB17); (0xFF21, 0xFF3A); (0xFF41, 0xFF5A);
    (0x10400, 0x1044F); (0x104B0, 0x104D3); (0x104D8, 0x104FB); (0x10570, 0x1057A);
    (0x1057C, 0x1058A); (0x1058C, 0x10592); (0x10594, 0x10595); (0x10597, 0x105A1);
    (0x105A3, 0x105B1); (0x105B3, 0x105B9); (0x105BB, 0x105BC); (0x10C80, 0x10CB2);
    (0x10CC0, 0x10CF2); (0x118A0, 0x118DF); (0x16E40, 0x16E7F); (0x1D400, 0x1D454);
    (0x1D456, 0x1D49C); (0x1D49E, 0x1D49F); (0x1D4A2, 0x1D4A2); (0x1D4A5, 0x1D4A6);
    (0x1D4A9, 0x1D4AC); (0x1D4AE, 0x1D4B9); (0x1D4BB, 0x1D4BB); (0x1D4BD, 0x1D4C3);
    (0x1D4C5, 0x1D505); (0x1D507, 0x1D50A); (0x1D50D, 0x1D514); (0x1D516, 0x1D51C);
    (0x1D51E, 0x1D539); (0x1D53B, 0x1D53E); (0x1D540, 0x1D544); (0x1D546, 0x1D546);
    (0x1D54A, 0x1D550); (0x1D552, 0x1D6A5); (0x1D6A8, 0x1D6C0); (0x1D6C2, 0x1D6DA);
    (0x1D6DC, 0x1D6FA); (0x1D6FC, 0x1D714); (0x1D716, 0x1D734); (0x1D736, 0x1D74E);
    (0x1D750, 0x1D76E); (0x1D770, 0x1D788); (0x1D78A, 0x1D7A8); (0x1D7AA, 0x1D7C2);
    (0x1D7C4, 0x1D7CB); (0x1DF00, 0x1DF09); (0x1DF0B, 0x1DF1E); (0x1E900, 0x1E943);
    (0x1F130, 0x1F149); (0x1F150, 0x1F169); (0x1F170, 0x1F189)
  ].

(** The code points above the ASCII range with the property
    [Case_Ignorable], as ranges. *)
Definition ignorable_table : list (Z * Z) :=
  [
    (0xA8, 0xA8); (0xAD, 0xAD); (0xAF, 0xAF); (0xB4, 0xB4);
    (0xB7, 0xB8); (0x2B0, 0x36F); (0x374, 0x375); (0x37A, 0x37A);
    (0x384, 0x385); (0x387, 0x387); (0x483, 0x489); (0x559, 0x559);
    (0x55F, 0x55F); (0x591, 0x5BD); (0x5BF, 0x5BF); (0x5C1, 0x5C2);
    (0x5C4, 0x5C5); (0x5C7, 0x5C7); (0x5F4, 0x5F4); (0x600, 0x605);
    (0x610, 0x61A); (0x61C, 0x61C); (0x640, 0x640); (0x64B, 0x65F);
    (0x670, 0x670); (0x6D6, 0x6DD); (0x6DF, 0x6E8); (0x6EA, 0x6ED);
    (0x70F, 0x70F); (0x711, 0x711); (0x730, 0x74A); (0x7A6, 0x7B0);
    (0x7EB, 0x7F5); (0x7FA, 0x7FA); (0x7FD, 0x7FD); (0x816, 0x82D);
    (0x859, 0x85B); (0x888, 0x888); (0x890, 0x891); (0x898, 0x89F);
    (0x8C9, 0x902); (0x93A, 0x93A); (0x93C, 0x93C); (0x941, 0x948);
    (0x94D, 0x94D); (0x951, 0x957); (0x962, 0x963); (0x971, 0x971);
    (0x981, 0x981); (0x9BC, 0x9BC); (0x9C1, 0x9C4); (0x9CD, 0x9CD);
    (0x9E2, 0x9E3); (0x9FE, 0x9FE); (0xA01, 0xA02); (0xA3C, 0xA3C);
    (0xA41, 0xA42); (0xA47, 0xA48); (0xA4B, 0xA4D); (0xA51, 0xA51);
    (0xA70, 0xA71); (0xA75, 0xA75); (0xA81, 0xA82); (0xABC, 0xABC);
    (0xAC1, 0xAC5); (0xAC7, 0xAC8); (0xACD, 0xACD); (0xAE2, 0xAE3);
    (0xAFA, 0xAFF); (0xB01, 0xB01); (0xB3C, 0xB3C); (0xB3F, 0xB3F);
    (0xB41, 0xB44); (0xB4D, 0xB4D); (0xB55, 0xB56); (0xB62, 0xB63);
    (0xB82, 0xB82); (0xBC0, 0xBC0); (0xBCD, 0xBCD); (0xC00, 0xC00);
    (0xC04, 0xC04); (0xC3C, 0xC3C); (0xC3E, 0xC40); (0xC46, 0xC48);
    (0xC4A, 0xC4D); (0xC55, 0xC56); (0xC62, 0xC63); (0xC81, 0xC81);
    (0xCBC, 0xCBC); (0xCBF, 0xCBF); (0xCC6, 0xCC6); (0xCCC, 0xCCD);
    (0xCE2, 0xCE3); (0xD00, 0xD01); (0xD3B, 0xD3C); (0xD41, 0xD44);
    (0xD4D, 0xD4D); (0xD62, 0xD63); (0xD81, 0xD81); (0xDCA, 0xDCA);
    (0xDD2, 0xDD4); (0xDD6, 0xDD6); (0xE31, 0xE31); (0xE34, 0xE3A);
    (0xE46, 0xE4E); (0xEB1, 0xEB1); (0xEB4, 0xEBC); (0xEC6, 0xEC6);
    (0xEC8, 0xECD); (0xF18, 0xF19); (0xF35, 0xF35); (0xF37, 0xF37);
    (0xF39, 0xF39); (0xF71, 0xF7E); (0xF80, 0xF84); (0xF86, 0xF87);
    (0xF8D, 0xF97); (0xF99, 0xFBC); (0xFC6, 0xFC6); (0x102D, 0x1030);
    (0x1032, 0x1037); (0x1039, 0x103A); (0x103D, 0x103E); (0x1058, 0x1059);
    (0x105E, 0x1060); (0x1071, 0x1074); (0x1082, 0x1082); (0x1085, 0x1086);
    (0x108D, 0x108D); (0x109D, 0x109D); (0x10FC, 0x10FC); (0x135D, 0x135F);
    (0x1712, 0x1714); (0x1732, 0x1733); (0x1752, 0x1753); (0x1772, 0x1773);
    (0x17B4, 0x17B5); (0x17B7, 0x17BD); (0x17C6, 0x17C6); (0x17C9, 0x17D3);
    (0x17D7, 0x17D7); (0x17DD, 0x17DD); (0x180B, 0x180F); (0x1843, 0x1843);
    (0x1885, 0x1886); (0x18A9, 0x18A9); (0x1920, 0x1922); (0x1927, 0x1928);
    (0x1932, 0x1932); (0x1939, 0x193B); (0x1A17, 0x1A18); (0x1A1B, 0x1A1B);
    (0x1A56, 0x1A56); (0x1A58, 0x1A5E); (0x1A60, 0x1A60); (0x1A62, 0x1A62);
    (0x1A65, 0x1A6C); (0x1A73, 0x1A7C); (0x1A7F, 0x1A7F); (0x1AA7, 0x1AA7);
    (0x1AB0, 0x1ACE); (0x1B00, 0x1B03); (0x1B34, 0x1B34); (0x1B36, 0x1B3A);
    (0x1B3C, 0x1B3C); (0x1B42, 0x1B42); (0x1B6B, 0x1B73); (0x1B80, 0x1B81);
    (0x1BA2, 0x1BA5); (0x1BA8, 0x1BA9); (0x1BAB, 0x1BAD); (0x1BE6, 0x1BE6);
    (0x1BE8, 0x1BE9); (0x1BED, 0x1BED); (0x1BEF, 0x1BF1); (0x1C2C, 0x1C33);
    (0x1C36, 0x1C37); (0x1C78, 0x1C7D); (0x1CD0, 0x1CD2); (0x1CD4, 0x1CE0);
    (0x1CE2, 0x1CE8); (0x1CED, 0x1CED); (0x1CF4, 0x1CF4); (0x1CF8, 0x1CF9);
    (0x1D2C, 0x1D6A); (0x1D78, 0x1D78); (0x1D9B, 0x1DFF); (0x1FBD, 0x1FBD);
    (0x1FBF, 0x1FC1); (0x1FCD, 0x1FCF); (0x1FDD, 0x1FDF); (0x1FED, 0x1FEF);
    (0x1FFD, 0x1FFE); (0x200B, 0x200F); (0x2018, 0x2019); (0x2024, 0x2024);
    (0x2027, 0x2027); (0x202A, 0x202E); (0x2060, 0x2064); (0x2066, 0x206F);
    (0x2071, 0x2071); (0x207F, 0x207F); (0x2090, 0x209C); (0x20D0, 0x20F0);
    (0x2C7C, 0x2C7D); (0x2CEF, 0x2CF1); (0x2D6F, 0x2D6F); (0x2D7F, 0x2D7F);
    (0x2DE0, 0x2DFF); (0x2E2F, 0x2E2F); (0x3005, 0x3005); (0x302A, 0x302D);
    (0x3031, 0x3035); (0x303B, 0x303B); (0x3099, 0x309E); (0x30FC, 0x30FE);
    (0xA015, 0xA015); (0xA4F8, 0xA4FD); (0xA60C, 0xA60C); (0xA66F, 0xA672);
    (0xA674, 0xA67D); (0xA67F, 0xA67F); (0xA69C, 0xA69F); (0xA6F0, 0xA6F1);
    (0xA700, 0xA721); (0xA770, 0xA770); (0xA788, 0xA78A); (0xA7F2, 0xA7F4);
    (0xA7F8, 0xA7F9); (0xA802, 0xA802); (0xA806, 0xA806); (0xA80B, 0xA80B);
    (0xA825, 0xA826); (0xA82C, 0xA82C); (0xA8C4, 0xA8C5); (0xA8E0, 0xA8F1);
    (0xA8FF, 0xA8FF); (0xA926, 0xA92D); (0xA947, 0xA951); (0xA980, 0xA982);
    (0xA9B3, 0xA9B3); (0xA9B6, 0xA9B9); (0xA9BC, 0xA9BD); (0xA9CF, 0xA9CF);
    (0xA9E5, 0xA9E6); (0xAA29, 0xAA2E); (0xAA31, 0xAA32); (0xAA35, 0xAA36);
    (0xAA43, 0xAA43); (0xAA4C, 0xAA4C); (0xAA70, 0xAA70); (0xAA7C, 0xAA7C);
    (0xAAB0, 0xAAB0); (0xAAB2, 0xAAB4); (0xAAB7, 0xAAB8); (0xAABE, 0xAABF);
    (0xAAC1, 0xAAC1); (0xAADD, 0xAADD); (0xAAEC, 0xAAED); (0xAAF3, 0xAAF4);
    (0xAAF6, 0xAAF6); (0xAB5B, 0xAB5F); (0xAB69, 0xAB6B); (0xABE5, 0xABE5);
    (0xABE8, 0xABE8); (0xABED, 0xABED); (0xFB1E, 0xFB1E); (0xFBB2, 0xFBC2);
    (0xFE00, 0xFE0F); (0xFE13, 0xFE13); (0xFE20, 0xFE2F); (0xFE52, 0xFE52);
    (0xFE55, 0xFE55); (0xFEFF, 0xFEFF); (0xFF07, 0xFF07); (0xFF0E, 0xFF0E);
    (0xFF1A, 0xFF1A); (0xFF3E, 0xFF3E); (0xFF40, 0xFF40); (0xFF70, 0xFF70);
    (0xFF9E, 0xFF9F); (0xFFE3, 0xFFE3); (0xFFF9, 0xFFFB); (0x101FD, 0x101FD);
    (0x102E0, 0x102E0); (0x10376, 0x1037A); (0x10780, 0x10785); (0x10787, 0x107B0);
    (0x107B2, 0x107BA); (0x10A01, 0x10A03); (0x10A05, 0x10A06); (0x10A0C, 0x10A0F);
    (0x10A38, 0x10A3A); (0x10A3F, 0x10A3F); (0x10AE5, 0x10AE6); (0x10D24, 0x10D27);
    (0x10EAB, 0x10EAC); (0x10F46, 0x10F50); (0x10F82, 0x10F85); (0x11001, 0x11001);
    (0x11038, 0x11046); (0x11070, 0x11070); (0x11073, 0x11074); (0x1107F, 0x11081);
    (0x110B3, 0x110B6); (0x110B9, 0x110BA); (0x110BD, 0x110BD); (0x110C2, 0x110C2);
    (0x110CD, 0x110CD); (0x11100, 0x11102); (0x11127, 0x1112B); (0x1112D, 0x11134);
    (0x11173, 0x11173); (0x11180, 0x11181); (0x111B6, 0x111BE); (0x111C9, 0x111CC);
    (0x111CF, 0x111CF); (0x1122F, 0x11231); (0x11234, 0x11234); (0x11236, 0x11237);
    (0x1123E, 0x1123E); (0x112DF, 0x112DF); (0x112E3, 0x112EA); (0x11300, 0x11301);
    (0x1133B, 0x1133C); (0x11340, 0x11340); (0x11366, 0x1136C); (0x11370, 0x11374);
    (0x11438, 0x1143F); (0x11442, 0x11444); (0x11446, 0x11446); (0x1145E, 0x1145E);
    (0x114B3, 0x114B8); (0x114BA, 0x114BA); (0x114BF, 0x114C0); (0x114C2, 0x114C3);
    (0x115B2, 0x115B5); (0x115BC, 0x115BD); (0x115BF, 0x115C0); (0x115DC, 0x115DD);
    (0x11633, 0x1163A); (0x1163D, 0x1163D); (0x1163F, 0x11640); (0x116AB, 0x116AB);
    (0x116AD, 0x116AD); (0x116B0, 0x116B5); (0x116B7, 0x116B7); (0x1171D, 0x1171F);
    (0x11722, 0x11725); (0x11727, 0x1172B); (0x1182F, 0x11837); (0x11839, 0x1183A);
    (0x1193B, 0x1193C); (0x1193E, 0x1193E); (0x11943, 0x11943); (0x119D4, 0x119D7);
    (0x119DA, 0x119DB); (0x119E0, 0x119E0); (0x11A01, 0x11A0A); (0x11A33, 0x11A38);
    (0x11A3B, 0x11A3E); (0x11A47, 0x11A47); (0x11A51, 0x11A56); (0x11A59, 0x11A5B);
    (0x11A8A, 0x11A96); (0x11A98, 0x11A99); (0x11C30, 0x11C36); (0x11C38, 0x11C3D);
    (0x11C3F, 0x11C3F); (0x11C92, 0x11CA7); (0x11CAA, 0x11CB0); (0x11CB2, 0x11CB3);
    (0x11CB5, 0x11CB6); (0x11D31, 0x11D36); (0x11D3A, 0x11D3A); (0x11D3C, 0x11D3D);
    (0x11D3F, 0x11D45); (0x11D47, 0x11D47); (0x11D90, 0x11D91); (0x11D95, 0x11D95);
    (0x11D97, 0x11D97); (0x11EF3, 0x11EF4); (0x13430, 0x13438); (0x16AF0, 0x16AF4);
    (0x16B30, 0x16B36); (0x16B40, 0x16B43); (0x16F4F, 0x16F4F); (0x16F8F, 0x16F9F);
    (0x16FE0, 0x16FE1); (0x16FE3, 0x16FE4); (0x1AFF0, 0x1AFF3); (0x1AFF5, 0x1AFFB);
    (0x1AFFD, 0x1AFFE); (0x1BC9D, 0x1BC9E); (0x1BCA0, 0x1BCA3); (0x1CF00, 0x1CF2D);
    (0x1CF30, 0x1CF46); (0x1D167, 0x1D169); (0x1D173, 0x1D182); (0x1D185, 0x1D18B);
    (0x1D1AA, 0x1D1AD); (0x1D242, 0x1D244); (0x1DA00, 0x1DA36); (0x1DA3B, 0x1DA6C);
    (0x1DA75, 0x1DA75); (0x1DA84, 0x1DA84); (0x1DA9B, 0x1DA9F); (0x1DAA1, 0x1DAAF);
    (0x1E000, 0x1E006); (0x1E008, 0x1E018); (0x1E01B, 0x1E021); (0x1E023, 0x1E024);
    (0x1E026, 0x1E02A); (0x1E130, 0x1E13D); (0x1E2AE, 0x1E2AE); (0x1E2EC, 0x1E2EF);
    (0x1E8D0, 0x1E8D6); (0x1E944, 0x1E94B); (0x1F3FB, 0x1F3FF); (0xE0001, 0xE0001);
    (0xE0020, 0xE007F); (0xE0100, 0xE01EF)
  ].

(** The code point that the table gives for [c]; [c] itself when the table
    has none. *)
Fixpoint mapped (t : list (Z * Z * Z * Z)) (c : Z) : Z :=
  match t with
  | [] => c
  | (first, last, step, by_) :: r =>
      if (first <=? c) && (c <=? last) && ((c - first) mod step =? 0) then c + by_
      else mapped r c
  end.

(** [c] lies in one of the ranges. *)
Fixpoint within (t : list (Z * Z)) (c : Z) : bool :=
  match t with
  | [] => false
  | (first, last) :: r => (first <=? c) && (c <=? last) || within r c
  end.

(** A letter that has a case: [Cased] and not [Case_Ignorable] (a
    case-ignorable character is passed over before this is asked). *)
Definition cased (c : Z) : bool :=
  if c <? 0x80 then (0x41 <=? c) && (c <=? 0x5A) || (0x61 <=? c) && (c <=? 0x7A)
  else within cased_table c.

(** A character that does not end a word: [Case_Ignorable]. *)
Definition case_ignorable (c : Z) : bool :=
  if c <? 0x80 then
    (c =? 0x27) || (c =? 0x2E) || (c =? 0x3A) || (c =? 0x5E) || (c =? 0x60)
  else within ignorable_table c.

(** The nearest character that is not case-ignorable is a cased letter. *)
Fixpoint next_is_cased (l : list Z) : bool :=
  match l with
  | [] => false
  | c :: r => if case_ignorable c then next_is_cased r else cased c
  end.

(** The condition [Final_Sigma] of [SpecialCasing.txt]: a cased letter
    comes before, none comes after; [before] is read backwards. *)
Definition final_sigma (before after : list Z) : bool :=
  next_is_cased before && negb (next_is_cased after).

(** The lower case of one code point between the code points [before]
    (the nearest first) and [after]. *)
Definition lower_point (before : list Z) (c : Z) (after : list Z) : list Z :=
  if c =? 0x3A3 then [if final_sigma before after then 0x3C2 else 0x3C3]
  else if c =? 0x130 then [0x69; 0x307]
  else if c <? 0x80 then [if (0x41 <=? c) && (c <=? 0x5A) then c + 0x20 else c]
  else [mapped lower_table c].

(** The lower case of the code points [l] that follow the code points
    [before]. *)
Fixpoint lower_points (before : list Z) (l : list Z) : list Z :=
  match l with
  | [] => []
  | c :: r => lower_point before c r ++ lower_points (c :: before) r
  end.

(** [s.toLowerCase()]. *)
Definition toLowerCase (s : string) : string :=
  text (lower_points [] (code_points s)).

(** *** Truthiness, defaults and sorting *)

(** Truthiness of a string: only the empty string is falsy. *)
Definition truthy (s : string) : bool :=
  match s with EmptyString => false | String _ _ => true end.

(** Truthiness of an optional string argument ([undefined] is falsy). *)
Definition truthy_opt (q : option string) : bool :=
  match q with None => false | Some s => truthy s end.

(** [a || b] on strings. *)
Definition or_else (a b : string) : string := if truthy a then a else b.

(** [arr.sort(cmp)]: the sort is stable; [cmp a b <= 0] keeps [a] before
    [b], [cmp a b > 0] moves [b] first. *)
Fixpoint sort_insert {A} (cmp : A -> A -> Z) (x : A) (l : list A) : list A :=
  match l with
  | [] => [x]
  | y :: r => if cmp x y <=? 0 then x :: y :: r else y :: sort_insert cmp x r
  end.

Fixpoint sort {A} (cmp : A -> A -> Z) (l : list A) : list A :=
  match l with
  | [] => []
  | x :: r => sort_insert cmp x (sort cmp r)
  end.

(* ===================================================================== *)
(** ** types.ts *)
(* ===================================================================== *)

Definition NoteID := string.
Definition Timestamp := Z.

Module Note.
Record t := mk {
  id : NoteID;
  title : string;
  content : string;
  tags : list string;
  createdAt : Timestamp;
  updatedAt : Timestamp;
}.
End Note.
Abbreviation Note := Note.t.
Abbreviation Notes := (list Note.t).

Module CreateNoteInput.
Record t := mk {
  title : string;
  content : string;
  tags : list string;
}.
End CreateNoteInput.

(** A field of an update is [None] when its key is left out. *)
Module UpdateNoteInput.
Record t := mk {
  title : option string;
  content : option string;
  tags : option (list string);
}.
End UpdateNoteInput.

(* ===================================================================== *)
(** ** The browser state and the monad of the [async] functions *)
(* ===================================================================== *)

(** What [localStorage.getItem(STORAGE_KEY)] finds.  [JSON.stringify] of an
    array of notes is read back by [JSON.parse] as that array, so a written
    collection is kept as the collection itself; an array is taken at the
    type [Note[]] that the source casts it to.  An array with elements that
    are not notes is not among these states: what the code does with one
    is in the module [Unchecked]. *)
Inductive Item :=
| NoItem                  (* null: nothing was ever stored under the key *)
| EmptyText               (* the empty text, which is falsy *)
| Malformed               (* a text on which JSON.parse throws *)
| NotArray                (* JSON that is not an array *)
| NoteArray (arr : Notes) (* the JSON of an array of notes *).

Record World := mkWorld {
  storage : Item;        (* the slot STORAGE_KEY of localStorage *)
  clock : nat -> Z;      (* the k-th reading of new Date() *)
  ticks : nat;           (* readings taken so far *)
  dice : nat -> Z;       (* the k-th draw of Math.random(), read modulo 16 *)
  rolls : nat;           (* values drawn so far *)
  requests : nat;        (* calls of fetch so far *)
}.

Inductive Err :=
| NoteNotFound           (* new Error("Note not found") *)
| BadBody                (* res.json() rejects *).

Inductive Result (A : Type) :=
| Ok (a : A)
| Throw (e : Err).
Arguments Ok {A} a.
Arguments Throw {A} e.

Definition M (S A : Type) : Type := S -> Result A * S.

Definition ret {S A} (a : A) : M S A := fun s => (Ok a, s).
Definition throw {S A} (e : Err) : M S A := fun s => (Throw e, s).
Definition bind {S A B} (m : M S A) (k : A -> M S B) : M S B :=
  fun s => match m s with
           | (Ok a, s') => k a s'
           | (Throw e, s') => (Throw e, s')
           end.

Declare Scope js_scope.
Delimit Scope js_scope with js.
Notation "x <- m ;; k" := (bind m (fun x => k))
  (at level 100, m at next level, right associativity) : js_scope.
Notation "m ;; k" := (bind m (fun _ => k))
  (at level 100, right associativity) : js_scope.
Open Scope js_scope.

(** [new Date().toISOString()]. *)
Definition now : M World Timestamp := fun w =>
  (Ok (clock w (ticks w)),
   mkWorld (storage w) (clock w) (S (ticks w)) (dice w) (rolls w) (requests w)).

(** [(Math.random() * 16) | 0]: an integer from 0 to 15. *)
Definition random16 : M World Z := fun w =>
  (Ok (dice w (rolls w) mod 16),
   mkWorld (storage w) (clock w) (ticks w) (dice w) (S (rolls w)) (requests w)).

(** [v.toString(16)] for [v] from 0 to 15. *)
Definition hex (v : Z) : ascii :=
  match String.get (Z.to_nat v) "0123456789abcdef" with
  | Some c => c
  | None => "0"%char
  end.

(** The callback that [uid] gives to [replace]. *)
Definition uid_digit (c : ascii) : M World ascii :=
  r <- random16 ;;
  let v := if decide (c = "x"%char) then r else Z.lor (Z.land r 3) 8 in
  ret (hex v).

(** [tpl.replace(/[xy]/g, cb)] where [cb] is [uid_digit]. *)
Fixpoint replace_xy (tpl : string) : M World string :=
  match tpl with
  | EmptyString => ret EmptyString
  | String c r =>
      if decide (c = "x"%char \/ c = "y"%char) then
        d <- uid_digit c ;; rest <- replace_xy r ;; ret (String d rest)
      else
        rest <- replace_xy r ;; ret (String c rest)
  end.

Definition uid : M World string :=
  replace_xy "xxxxxxxx-xxxx-4xxx-yxxx-xxxxxxxxxxxx".

(* ===================================================================== *)
(** ** services/api.ts *)
(* ===================================================================== *)

(** The interface [NotesAPI]. *)
Module NotesAPI.
Record t := mk {
  list : option string -> M World Notes;
  get : NoteID -> M World (option Note);
  create : CreateNoteInput.t -> M World Note;
  update : NoteID -> UpdateNoteInput.t -> M World Note;
  remove : NoteID -> M World unit;
}.
End NotesAPI.

(** [createLocalMock]: the store kept in [localStorage]. *)
Module LocalMock.

(** [localStorage.setItem(STORAGE_KEY, JSON.stringify(notes))]. *)
Definition write (notes : Notes) : M World unit := fun w =>
  (Ok tt,
   mkWorld (NoteArray notes) (clock w) (ticks w) (dice w) (rolls w) (requests w)).

Definition seed : M World Notes :=
  now_ <- now ;;
  id1 <- uid ;;
  id2 <- uid ;;
  let data : Notes :=
    [ Note.mk id1 "Welcome to Notes"
        "This is a demo note. Use the + New Note button to create your own. Edit, search, and delete as needed."
        ["welcome"; "demo"] now_ now_;
      Note.mk id2 "Keyboard Tips"
        "Use Ctrl/Cmd+K to focus search. Use Ctrl/Cmd+Enter to save in the editor."
        ["tips"] now_ now_ ] in
  write data ;;
  ret data.

Definition read : M World Notes := fun w =>
  match storage w with
  | NoItem => seed w          (* !raw *)
  | EmptyText => seed w       (* !raw *)
  | Malformed => seed w       (* JSON.parse throws, caught *)
  | NotArray => seed w        (* Array.isArray(arr) is false *)
  | NoteArray arr => (Ok arr, w)
  end.

(** The filter of [list]; [q] is the lowered query. *)
Definition hit (q : string) (n : Note) : bool :=
  includes (toLowerCase (Note.title n)) q
  || includes (toLowerCase (Note.content n)) q
  || existsb (fun t => includes (toLowerCase t) q) (Note.tags n).

Definition list (query : option string) : M World Notes :=
  all0 <- read ;;
  let all := sort (fun a b => Note.updatedAt b - Note.updatedAt a) all0 in
  match query with
  | Some query' =>
      if truthy query' then
        let q := toLowerCase query' in
        ret (List.filter (hit q) all)
      else ret all
  | None => ret all
  end.

Definition get (id : NoteID) : M World (option Note) :=
  all <- read ;;
  ret (List.find (fun n => bool_decide (Note.id n = id)) all).

Definition create (input : CreateNoteInput.t) : M World Note :=
  now_ <- now ;;
  id_ <- uid ;;
  let newNote :=
    Note.mk id_
      (or_else (CreateNoteInput.title input) "Untitled")
      (or_else (CreateNoteInput.content input) EmptyString)
      (CreateNoteInput.tags input)
      now_ now_ in
  all <- read ;;
  let all := newNote :: all in
  write all ;;
  ret newNote.

(** [{ ...old, ...input, updatedAt }]. *)
Definition merge (old : Note) (input : UpdateNoteInput.t) (updatedAt : Timestamp) : Note :=
  Note.mk (Note.id old)
    (default (Note.title old) (UpdateNoteInput.title input))
    (default (Note.content old) (UpdateNoteInput.content input))
    (default (Note.tags old) (UpdateNoteInput.tags input))
    (Note.createdAt old)
    updatedAt.

Definition update (id : NoteID) (input : UpdateNoteInput.t) : M World Note :=
  all <- read ;;
  match list_find (fun n => Note.id n = id) all with
  | None => throw NoteNotFound
  | Some (idx, old) =>
      now_ <- now ;;
      let updated := merge old input now_ in
      let all := <[idx := updated]> all in
      write all ;;
      ret updated
  end.

Definition remove (id : NoteID) : M World unit :=
  all <- read ;;
  let next := List.filter (fun n => negb (bool_decide (Note.id n = id))) all in
  write next.

End LocalMock.

Definition createLocalMock : NotesAPI.t :=
  NotesAPI.mk LocalMock.list LocalMock.get LocalMock.create LocalMock.update
    LocalMock.remove.

(** *** An array that nobody checked *)

(** [read] hands out the array that [JSON.parse] finds as it is: the cast
    to [Note[]] checks nothing, and the operations above are modelled at
    that type.  What the lines of [get] and [remove] do when an element of
    the array is not a note is modelled here for the element [null] (the
    JSON of a hole in an array): reading a property of [null] throws a
    [TypeError], which nothing catches. *)
Module Unchecked.

(** An element of the stored array: a note, or [null]. *)
Definition Element := option Note.

Inductive Outcome (A : Type) :=
| Returns (a : A)
| TypeError.
Arguments Returns {A} a.
Arguments TypeError {A}.

(** [n.id]. *)
Definition id_of (n : Element) : Outcome NoteID :=
  match n with
  | Some n' => Returns (Note.id n')
  | None => TypeError
  end.

(** [all.find((n) => n.id === id) || null]. *)
Fixpoint get (id : NoteID) (all : list Element) : Outcome (option Note) :=
  match all with
  | [] => Returns None
  | n :: rest =>
      match id_of n with
      | TypeError => TypeError
      | Returns i => if bool_decide (i = id) then Returns n else get id rest
      end
  end.

(** [all.filter((n) => n.id !== id)], which [remove] then writes. *)
Fixpoint remove (id : NoteID) (all : list Element) : Outcome (list Element) :=
  match all with
  | [] => Returns []
  | n :: rest =>
      match id_of n with
      | TypeError => TypeError
      | Returns i =>
          match remove id rest with
          | TypeError => TypeError
          | Returns next => Returns (if negb (bool_decide (i = id)) then n :: next else next)
          end
      end
  end.

End Unchecked.

(** *** The client of the REST service *)

Inductive Method := GET | POST | PATCH | DELETE.

(** The path and query part that follows [baseUrl]. *)
Inductive Route :=
| NotesRoute (query : option string)   (* /notes or /notes?query=... *)
| NoteRoute (id : NoteID)              (* /notes/:id *).

(** The JSON text sent as [body]. *)
Inductive Payload :=
| NoPayload
| CreatePayload (input : CreateNoteInput.t)
| UpdatePayload (input : UpdateNoteInput.t).

Record Request := mkRequest {
  baseUrl : string;
  route : Route;
  method : Method;
  payload : Payload;
}.

(** A response, read at the type [A] that the caller casts [res.json()]
    to; [json] is [None] when [res.json()] rejects. *)
Record Response (A : Type) := mkResponse {
  status : Z;
  json : option A;
}.
Arguments mkResponse {A} status json.
Arguments status {A} r.
Arguments json {A} r.

(** [res.ok]: the status is in the range 200-299. *)
Definition ok {A} (res : Response A) : bool :=
  (200 <=? status res) && (status res <=? 299).

(** The network: what the [k]-th call of [fetch] does with a request;
    [None] when [fetch] rejects (connection refused, timeout). *)
Definition Network := forall A : Type, nat -> Request -> option (Response A).

Module BackendClient.
Section Client.
Variable fetch : Network.
Variable baseUrl : string.
Variable mock : NotesAPI.t.

(** [null] when [fetch] rejects or the status is not a success. *)
Definition safeFetch (A : Type) (input : Route) (method : Method)
    (body : Payload) : M World (option (Response A)) := fun w =>
  let w' := mkWorld (storage w) (clock w) (ticks w) (dice w) (rolls w)
              (S (requests w)) in
  match fetch A (requests w) (mkRequest baseUrl input method body) with
  | Some res => if ok res then (Ok (Some res), w') else (Ok None, w')
  | None => (Ok None, w')
  end.

(** [await res.json()]. *)
Definition res_json {A} (res : Response A) : M World A :=
  match json res with
  | Some v => ret v
  | None => throw BadBody
  end.

Definition list (query : option string) : M World Notes :=
  let q := if truthy_opt query then query else None in
  res <- safeFetch Notes (NotesRoute q) GET NoPayload ;;
  match res with
  | None => NotesAPI.list mock query
  | Some res => res_json res
  end.

Definition get (id : NoteID) : M World (option Note) :=
  res <- safeFetch Note (NoteRoute id) GET NoPayload ;;
  match res with
  | None => NotesAPI.get mock id
  | Some res =>
      if status res =? 404 then ret None
      else (n <- res_json res ;; ret (Some n))
  end.

Definition create (input : CreateNoteInput.t) : M World Note :=
  res <- safeFetch Note (NotesRoute None) POST (CreatePayload input) ;;
  match res with
  | None => NotesAPI.create mock input
  | Some res => res_json res
  end.

Definition update (id : NoteID) (input : UpdateNoteInput.t) : M World Note :=
  res <- safeFetch Note (NoteRoute id) PATCH (UpdatePayload input) ;;
  match res with
  | None => NotesAPI.update mock id input
  | Some res => res_json res
  end.

Definition remove (id : NoteID) : M World unit :=
  res <- safeFetch unit (NoteRoute id) DELETE NoPayload ;;
  match res with
  | None => NotesAPI.remove mock id
  | Some _ => ret tt
  end.

End Client.
End BackendClient.

Definition createBackendClient (fetch : Network) (baseUrl : string)
    (mock : NotesAPI.t) : NotesAPI.t :=
  NotesAPI.mk
    (BackendClient.list fetch baseUrl mock)
    (BackendClient.get fetch baseUrl mock)
    (BackendClient.create fetch baseUrl mock)
    (BackendClient.update fetch baseUrl mock)
    (BackendClient.remove fetch baseUrl mock).

(** [getNotesAPI]; [base] is the configured base address, empty when none
    is configured. *)
Definition getNotesAPI (fetch : Network) (base : string) : NotesAPI.t :=
  let mock := createLocalMock in
  if truthy base then createBackendClient fetch base mock else mock.

(* ===================================================================== *)
(** ** state/store.ts *)
(* ===================================================================== *)

(** A listener is a function object; [l !== fn] compares identities, so a
    listener is known by its identity.  What a call [l()] does lies outside
    the store: a call is recorded as an [Event], with the value of
    [store.notes] that the listener can see when it runs.  Listeners are
    taken to return normally and not to call back into the store. *)
Definition Listener := nat.

Inductive Event :=
| Called (l : Listener) (seen : Notes).

Module NotesStore.

Record t := mk {
  api : NotesAPI.t;
  _notes : Notes;
  _query : string;
  listeners : list Listener;
}.

(** The running page: the browser, the store and the calls made to
    listeners so far. *)
Record Page := mkPage {
  world : World;
  store : t;
  heard : list Event;
}.

(** An operation of the data layer run from the store. *)
Definition await {A} (op : M World A) : M Page A := fun p =>
  let (r, w) := op (world p) in (r, mkPage w (store p) (heard p)).

Definition this : M Page t := fun p => (Ok (store p), p).

Definition set_notes (l : Notes) : M Page unit := fun p =>
  let s := store p in
  (Ok tt, mkPage (world p) (mk (api s) l (_query s) (listeners s)) (heard p)).

Definition set_query (q : string) : M Page unit := fun p =>
  let s := store p in
  (Ok tt, mkPage (world p) (mk (api s) (_notes s) q (listeners s)) (heard p)).

Definition set_listeners (ls : list Listener) : M Page unit := fun p =>
  let s := store p in
  (Ok tt, mkPage (world p) (mk (api s) (_notes s) (_query s) ls) (heard p)).

(** The call [l()]. *)
Definition call (l : Listener) : M Page unit := fun p =>
  (Ok tt, mkPage (world p) (store p) (heard p ++ [Called l (_notes (store p))])).

(** The function that [subscribe] returns. *)
Definition unsubscribe (fn : Listener) : M Page unit :=
  s <- this ;;
  set_listeners (List.filter (fun l => negb (bool_decide (l = fn))) (listeners s)).

Definition subscribe (fn : Listener) : M Page (M Page unit) :=
  s <- this ;;
  set_listeners (listeners s ++ [fn]) ;;
  ret (unsubscribe fn).

(** [for (const l of ls) l()]. *)
Fixpoint for_of (ls : list Listener) : M Page unit :=
  match ls with
  | [] => ret tt
  | l :: rest => call l ;; for_of rest
  end.

Definition emit : M Page unit :=
  s <- this ;;
  for_of (listeners s).

Definition refresh : M Page unit :=
  s <- this ;;
  l <- await (NotesAPI.list (api s) (Some (_query s))) ;;
  set_notes l ;;
  emit.

(** [refresh] up to its [await]: [list] has been called, and its promise
    has settled with [r] (the network of this model answers at once). *)
Definition refresh_called : M Page (Result Notes) := fun p =>
  let s := store p in
  let (r, w) := NotesAPI.list (api s) (Some (_query s)) (world p) in
  (Ok r, mkPage w s (heard p)).

(** [refresh] from its [await] on. *)
Definition refresh_resumed (r : Result Notes) : M Page unit :=
  match r with
  | Ok l => set_notes l ;; emit
  | Throw e => throw e
  end.

(** The rest of a call that nobody awaits: it runs when its turn comes,
    and what it throws stays with the dropped promise. *)
Definition detached (rest : M Page unit) : M Page unit := fun p =>
  (Ok tt, snd (rest p)).

(** [this.refresh()] is not awaited: [setQuery] returns when [refresh]
    reaches its [await], before the cache is set and before any listener
    is called.  What is left of [refresh] is the value of the computation
    (the caller of [setQuery] itself gets [undefined]); it is run
    afterwards, like the function that [subscribe] returns. *)
Definition setQuery (q : string) : M Page (M Page unit) :=
  set_query q ;;
  r <- refresh_called ;;
  ret (detached (refresh_resumed r)).

Definition loadOne (id : NoteID) : M Page (option Note) :=
  s <- this ;;
  await (NotesAPI.get (api s) id).

Definition create (input : CreateNoteInput.t) : M Page unit :=
  s <- this ;;
  await (NotesAPI.create (api s) input) ;;
  refresh.

Definition update (id : NoteID) (input : UpdateNoteInput.t) : M Page unit :=
  s <- this ;;
  await (NotesAPI.update (api s) id input) ;;
  refresh.

Definition remove (id : NoteID) : M Page unit :=
  s <- this ;;
  await (NotesAPI.remove (api s) id) ;;
  refresh.

(** [new NotesStore()]. *)
Definition new (fetch : Network) (base : string) : t :=
  mk (getNotesAPI fetch base) [] EmptyString [].

End NotesStore.

(* ===================================================================== *)
(** * Vocabulary of the properties *)
(* ===================================================================== *)

(** ** Changes of the browser state *)

Definition with_storage (i : Item) (w : World) : World :=
  mkWorld i (clock w) (ticks w) (dice w) (rolls w) (requests w).
Definition ticked (n : nat) (w : World) : World :=
  mkWorld (storage w) (clock w) (n + ticks w) (dice w) (rolls w) (requests w).
Definition rolled (n : nat) (w : World) : World :=
  mkWorld (storage w) (clock w) (ticks w) (dice w) (n + rolls w) (requests w).
Definition sent (w : World) : World :=
  mkWorld (storage w) (clock w) (ticks w) (dice w) (rolls w) (S (requests w)).

(** ** Generated ids, as a function of the random source *)

(** The text that [replace_xy] builds from the draws [k], [k+1], ... *)
Fixpoint fill_xy (d : nat -> Z) (k : nat) (tpl : string) : string :=
  match tpl with
  | EmptyString => EmptyString
  | String c r =>
      if decide (c = "x"%char \/ c = "y"%char) then
        let v := if decide (c = "x"%char) then d k mod 16
                 else Z.lor (Z.land (d k mod 16) 3) 8 in
        String (hex v) (fill_xy d (S k) r)
      else String c (fill_xy d k r)
  end.

(** How many draws a template takes. *)
Fixpoint count_xy (tpl : string) : nat :=
  match tpl with
  | EmptyString => 0
  | String c r =>
      (if decide (c = "x"%char \/ c = "y"%char) then 1 else 0) + count_xy r
  end%nat.

(** The id that [uid] returns when [k] values were drawn before. *)
Definition uid_at (d : nat -> Z) (k : nat) : string :=
  fill_xy d k "xxxxxxxx-xxxx-4xxx-yxxx-xxxxxxxxxxxx".

(** The next [m] ids that [uid] will return in state [w]; each takes 31
    draws. *)
Definition next_ids (w : World) (m : nat) : list NoteID :=
  map (fun k => uid_at (dice w) (31 * k + rolls w)) (seq 0 m).

(** ** What is stored and what a read finds *)

(** The collection that is persisted (none when the slot holds no array). *)
Definition collection (w : World) : Notes :=
  match storage w with
  | NoteArray arr => arr
  | _ => []
  end.

Definition ids (arr : Notes) : list NoteID := map Note.id arr.

(** The slot holds no array: it is missing, empty, malformed or not an
    array.  These are the states in which [read] reseeds; an array is
    never reseeded, whatever it holds. *)
Definition corrupt (i : Item) : Prop :=
  match i with
  | NoteArray _ => False
  | _ => True
  end.

(** The two demonstration notes. *)
Definition welcome (id : NoteID) (t : Timestamp) : Note :=
  Note.mk id "Welcome to Notes"
    "This is a demo note. Use the + New Note button to create your own. Edit, search, and delete as needed."
    ["welcome"; "demo"] t t.

Definition tips (id : NoteID) (t : Timestamp) : Note :=
  Note.mk id "Keyboard Tips"
    "Use Ctrl/Cmd+K to focus search. Use Ctrl/Cmd+Enter to save in the editor."
    ["tips"] t t.

(** The collection that a reseed at state [w] produces. *)
Definition demo (w : World) : Notes :=
  [ welcome (uid_at (dice w) (rolls w)) (clock w (ticks w));
    tips (uid_at (dice w) (31 + rolls w)) (clock w (ticks w)) ].

(** The state after a reseed at state [w]: one reading of the clock, two
    ids, one write. *)
Definition reseeded (w : World) : World :=
  with_storage (NoteArray (demo w)) (rolled 62 (ticked 1 w)).

(** The collection that [read] returns in state [w], and the state it
    leaves. *)
Definition loaded (w : World) : Notes * World :=
  match storage w with
  | NoteArray arr => (arr, w)
  | _ => (demo w, reseeded w)
  end.

(** How many ids a read draws: two when it has to reseed. *)
Definition seeds (w : World) : nat :=
  match storage w with
  | NoteArray _ => 0
  | _ => 2
  end.

(** ** The fallback of the remote client *)

(** Every call of [fetch] rejects or answers with a status that is not a
    success. *)
Definition always_fails (fetch : Network) : Prop :=
  forall A k req,
    match fetch A k req with
    | None => True
    | Some res => ok res = false
    end.

(** An outcome of the local store, seen after one more request was sent:
    the same result and the same state, but for the count of requests. *)
Definition after_request {A} (x : Result A * World) : Result A * World :=
  (fst x, sent (snd x)).

(** The outcome does not depend on the requests sent before. *)
Definition ignores_requests {A} (m : M World A) : Prop :=
  forall w, m (sent w) = after_request (m w).

(** A network that answers every request with "404 Not Found". *)
Definition net404 : Network := fun A _ _ => Some (mkResponse 404 None).

(** A network where every call of [fetch] rejects. *)
Definition offline : Network := fun A _ _ => None.

(** ** Search *)

(** The lower case of [q] occurs in the lower case of [s]. *)
Definition lowered_in (q s : string) : Prop :=
  exists pre post, toLowerCase s = pre +:+ toLowerCase q +:+ post.

(** The notes that [list query] has to return: all of them when the query
    is omitted or empty, else those whose title, content or some tag
    contains the query, both taken in lower case. *)
Definition wanted (query : option string) (n : Note) : Prop :=
  match query with
  | None => True
  | Some q =>
      q = EmptyString \/ lowered_in q (Note.title n) \/ lowered_in q (Note.content n)
      \/ exists t, In t (Note.tags n) /\ lowered_in q t
  end.

(** Letter case ignored, said without [toLowerCase]: the capital and the
    small letters of the ASCII alphabet go in pairs, and two characters are
    the same letter when they are equal or make such a pair. *)
Definition letters : list (ascii * ascii) :=
  combine (list_ascii_of_string "ABCDEFGHIJKLMNOPQRSTUVWXYZ")
    (list_ascii_of_string "abcdefghijklmnopqrstuvwxyz").

Definition same_letter (a b : ascii) : Prop :=
  a = b \/ In (a, b) letters \/ In (b, a) letters.

Fixpoint same_text (a b : string) : Prop :=
  match a, b with
  | EmptyString, EmptyString => True
  | String x a', String y b' => same_letter x y /\ same_text a' b'
  | _, _ => False
  end.

(** [q] occurs in [s] when letter case is ignored. *)
Definition ci_substring (q s : string) : Prop :=
  exists pre mid post, s = pre +:+ mid +:+ post /\ same_text mid q.

(** A text of ASCII characters only. *)
Fixpoint plain (s : string) : bool :=
  match s with
  | EmptyString => true
  | String c r => (byte_code c <? 0x80) && plain r
  end.

(** The lower case of an ASCII text, character by character. *)
Definition lower_ascii (c : ascii) : ascii :=
  let n := nat_of_ascii c in
  if ((65 <=? n)%nat && (n <=? 90)%nat)%bool then ascii_of_nat (n + 32) else c.

Fixpoint lower_plain (s : string) : string :=
  match s with
  | EmptyString => EmptyString
  | String c r => String (lower_ascii c) (lower_plain r)
  end.

(** Most recently updated first. *)
Definition newest_first (l : Notes) : Prop :=
  StronglySorted (fun a b => Note.updatedAt b <= Note.updatedAt a) l.

(** ** Sequences of operations and the invariants of the collection *)

Inductive Op :=
| OList (query : option string)
| OGet (id : NoteID)
| OCreate (input : CreateNoteInput.t)
| OUpdate (id : NoteID) (input : UpdateNoteInput.t)
| ORemove (id : NoteID).

(** The state after one operation of the local store (a thrown error
    leaves the state as it is at the throw). *)
Definition step (w : World) (op : Op) : World :=
  match op with
  | OList q => snd (LocalMock.list q w)
  | OGet i => snd (LocalMock.get i w)
  | OCreate input => snd (LocalMock.create input w)
  | OUpdate i input => snd (LocalMock.update i input w)
  | ORemove i => snd (LocalMock.remove i w)
  end.

Definition run (ops : list Op) (w : World) : World := fold_left step ops w.

(** No note was updated before it was created. *)
Definition in_order (arr : Notes) : Prop :=
  Forall (fun n => Note.createdAt n <= Note.updatedAt n) arr.

(** The next [m] ids of [uid] differ from each other and from the ids of
    the stored notes. *)
Definition fresh_ids (w : World) (m : nat) : Prop :=
  NoDup (ids (collection w) ++ next_ids w m).

(** How many ids an operation draws in state [w]: one for [create], and
    two more when its read has to reseed. *)
Definition draws (op : Op) (w : World) : nat :=
  (match op with OCreate _ => 1 | _ => 0 end + seeds w)%nat.

(** How many ids a sequence of operations draws when it starts in state
    [w]. *)
Fixpoint drawn (ops : list Op) (w : World) : nat :=
  match ops with
  | [] => 0%nat
  | op :: rest => (draws op w + drawn rest (step w op))%nat
  end.

(** The readings of the clock from the next one up to the reading number
    [upto] are on time for the notes [arr]: none of them is before an
    earlier one of them, nor before the creation of a note of [arr]. *)
Definition on_time (arr : Notes) (w : World) (upto : nat) : Prop :=
  forall j : nat, (ticks w <= j < upto)%nat ->
    (forall i : nat, (ticks w <= i <= j)%nat -> clock w i <= clock w j) /\
    Forall (fun n => Note.createdAt n <= clock w j) arr.

(** ** Listeners and pages *)

(** How often listener [f] is registered. *)
Definition registrations (f : Listener) (ls : list Listener) : nat :=
  length (List.filter (fun l => bool_decide (l = f)) ls).

(** How often listener [f] was called in a list of events. *)
Definition calls_of (f : Listener) (evs : list Event) : nat :=
  length (List.filter (fun e => match e with Called l _ => bool_decide (l = f) end) evs).

(** The calls that tell every listener of [ls] about the cache [l]. *)
Definition told (ls : list Listener) (l : Notes) : list Event :=
  map (fun f => Called f l) ls.

(** The page after [n] calls of [subscribe f]. *)
Definition subscribed (n : nat) (f : Listener) (p : NotesStore.Page) : NotesStore.Page :=
  Nat.iter n (fun p => snd (NotesStore.subscribe f p)) p.

(** The store with another cache, or with other listeners. *)
Definition with_notes (l : Notes) (s : NotesStore.t) : NotesStore.t :=
  NotesStore.mk (NotesStore.api s) l (NotesStore._query s) (NotesStore.listeners s).
Definition with_listeners (ls : list Listener) (s : NotesStore.t) : NotesStore.t :=
  NotesStore.mk (NotesStore.api s) (NotesStore._notes s) (NotesStore._query s) ls.

(** The page with another browser state, or with another store. *)
Definition with_world (w : World) (p : NotesStore.Page) : NotesStore.Page :=
  NotesStore.mkPage w (NotesStore.store p) (NotesStore.heard p).
Definition with_store (s : NotesStore.t) (p : NotesStore.Page) : NotesStore.Page :=
  NotesStore.mkPage (NotesStore.world p) s (NotesStore.heard p).

(** ** Browsers of the examples *)

(** A first visit: nothing stored, a clock that advances, a random source
    that gives a new digit for every id. *)
Definition fresh_browser : World :=
  mkWorld NoItem (fun k => 1000 + Z.of_nat k) 0 (fun k => Z.of_nat (k / 31)) 0 0.

(** A browser whose clock is read twice in the same millisecond and whose
    random source repeats itself. *)
Definition stuck_browser : World :=
  mkWorld (NoteArray []) (fun _ => 1000) 0 (fun _ => 0) 0 0.

(** A browser whose clock is set back between readings and whose random
    source repeats itself. *)
Definition erratic_browser : World :=
  mkWorld (NoteArray []) (fun k => 1000 - Z.of_nat k) 0 (fun _ => 0) 0 0.

(** ** The layout of an id *)

(** A lower-case hexadecimal digit. *)
Definition is_hex (c : ascii) : bool :=
  existsb (fun d => bool_decide (c = d)) (list_ascii_of_string "0123456789abcdef").

(** One of the four digits that [(r & 0x3) | 0x8] can give. *)
Definition is_variant (c : ascii) : bool :=
  existsb (fun d => bool_decide (c = d)) (list_ascii_of_string "89ab").

(** [s] follows the template [tpl]: a hexadecimal digit for every [x], a
    variant digit for every [y], the character of the template
    elsewhere, and nothing more. *)
Fixpoint shaped (tpl s : string) {struct tpl} : bool :=
  match tpl, s with
  | EmptyString, EmptyString => true
  | String t tpl', String c s' =>
      (if decide (t = "x"%char) then is_hex c
       else if decide (t = "y"%char) then is_variant c
       else bool_decide (c = t))
      && shaped tpl' s'
  | _, _ => false
  end.

(** ** What a query returns *)

(** The notes that [list query] returns in state [w]. *)
Definition listed (query : option string) (w : World) : Notes :=
  match fst (LocalMock.list query w) with
  | Ok l => l
  | Throw _ => []
  end.

(** The test "was updated at [t]". *)
Definition updated_at (t : Timestamp) (n : Note) : bool :=
  bool_decide (Note.updatedAt n = t).

(** A network that answers every request with "200 OK" and a body that
    [res.json()] cannot read. *)
Definition net200_unreadable : Network := fun A _ _ => Some (mkResponse 200 None).

(** A network that answers the first request with "204 No Content" and
    rejects every later call. *)
Definition net_then_down : Network := fun A k _ =>
  match k with
  | O => Some (mkResponse 204 None)
  | S _ => None
  end.

(** The store of the page works on the local store. *)
Definition local_page (p : NotesStore.Page) : Prop :=
  NotesStore.api (NotesStore.store p) = createLocalMock.

(** The cache of a page. *)
Definition cache (p : NotesStore.Page) : Notes :=
  NotesStore._notes (NotesStore.store p).

(* ===================================================================== *)
(** * Properties *)
(* ===================================================================== *)

(** ** The monad and the sources of time and randomness *)


Lemma bind_ok {S A B} (m : M S A) (k : A -> M S B) s a s' :
  m s = (Ok a, s') -> bind m k s = k a s'.
Proof. intros E. unfold bind. now rewrite E. Qed.

Lemma bind_throw {S A B} (m : M S A) (k : A -> M S B) s e s' :
  m s = (Throw e, s') -> bind m k s = (Throw e, s').
Proof. intros E. unfold bind. now rewrite E. Qed.

(** The equations that say what a primitive does in a state are collected
    in a hint base; [run] rewrites the first step of a sequence with
    them. *)
Create HintDb js_run discriminated.

Ltac run := erewrite bind_ok by (solve [eauto 2 with js_run nocore]).

Lemma world_eta w :
  mkWorld (storage w) (clock w) (ticks w) (dice w) (rolls w) (requests w) = w.
Proof. now destruct w. Qed.

Lemma rolled_0 w : rolled 0 w = w.
Proof. apply world_eta. Qed.

Lemma now_run w : now w = (Ok (clock w (ticks w)), ticked 1 w).
Proof. reflexivity. Qed.

Lemma random16_run w : random16 w = (Ok (dice w (rolls w) mod 16), rolled 1 w).
Proof. reflexivity. Qed.

#[local] Hint Resolve now_run random16_run : js_run.

Lemma rolled_rolled n m w : rolled n (rolled m w) = rolled (n + m) w.
Proof. unfold rolled; simpl. f_equal. lia. Qed.

Lemma replace_xy_run tpl w :
  replace_xy tpl w = (Ok (fill_xy (dice w) (rolls w) tpl), rolled (count_xy tpl) w).
Proof.
  revert w. induction tpl as [|c r IH]; intros w; cbn [replace_xy fill_xy count_xy].
  - unfold ret. now rewrite rolled_0.
  - destruct (decide (c = "x"%char \/ c = "y"%char)) as [Hxy|Hxy].
    + unfold uid_digit.
      rewrite (bind_ok _ _ w (hex (if decide (c = "x"%char) then dice w (rolls w) mod 16
                                   else Z.lor (Z.land (dice w (rolls w) mod 16) 3) 8))
                 (rolled 1 w)).
      2:{ run. reflexivity. }
      erewrite bind_ok by apply IH. unfold ret.
      rewrite rolled_rolled. cbn [dice rolls rolled].
      replace (1 + rolls w)%nat with (S (rolls w)) by lia.
      replace (count_xy r + 1)%nat with (1 + count_xy r)%nat by lia.
      reflexivity.
    + erewrite bind_ok by apply IH. reflexivity.
Qed.

Lemma uid_run w : uid w = (Ok (uid_at (dice w) (rolls w)), rolled 31 w).
Proof. unfold uid, uid_at. rewrite replace_xy_run. reflexivity. Qed.

#[local] Hint Resolve uid_run : js_run.

(** ** The local store, operation by operation *)

Opaque uid uid_at.

Lemma write_run notes w :
  LocalMock.write notes w = (Ok tt, with_storage (NoteArray notes) w).
Proof. reflexivity. Qed.

#[local] Hint Resolve write_run : js_run.

Lemma seed_run w : LocalMock.seed w = (Ok (demo w), reseeded w).
Proof.
  unfold LocalMock.seed. do 4 run.
  unfold ret, demo, reseeded, welcome, tips, with_storage, rolled, ticked.
  cbn [storage clock ticks dice rolls requests]. reflexivity.
Qed.

Opaque LocalMock.seed.

Lemma read_run w : LocalMock.read w = (Ok (fst (loaded w)), snd (loaded w)).
Proof.
  unfold LocalMock.read, loaded.
  destruct (storage w); try apply seed_run. reflexivity.
Qed.

#[local] Hint Resolve read_run : js_run.

Lemma loaded_array w arr : storage w = NoteArray arr -> loaded w = (arr, w).
Proof. intros E. unfold loaded. now rewrite E. Qed.

Lemma loaded_corrupt w : corrupt (storage w) -> loaded w = (demo w, reseeded w).
Proof. unfold loaded, corrupt. now destruct (storage w). Qed.

Lemma storage_loaded w : storage (snd (loaded w)) = NoteArray (fst (loaded w)).
Proof. unfold loaded. now destruct (storage w) eqn:E. Qed.

Lemma list_run query w :
  LocalMock.list query w =
  (Ok (let all := sort (fun a b => Note.updatedAt b - Note.updatedAt a) (fst (loaded w)) in
       if truthy_opt query
       then List.filter (LocalMock.hit (toLowerCase (default EmptyString query))) all
       else all),
   snd (loaded w)).
Proof.
  unfold LocalMock.list. run.
  destruct query as [q|]; cbn [truthy_opt default]; [|reflexivity].
  now destruct (truthy q).
Qed.

Lemma get_run i w :
  LocalMock.get i w =
  (Ok (List.find (fun n => bool_decide (Note.id n = i)) (fst (loaded w))),
   snd (loaded w)).
Proof. unfold LocalMock.get. now run. Qed.

(** The note that [create] builds in state [w]. *)
Lemma create_run input w :
  let w2 := rolled 31 (ticked 1 w) in
  let n := Note.mk (uid_at (dice w) (rolls w))
             (or_else (CreateNoteInput.title input) "Untitled")
             (or_else (CreateNoteInput.content input) EmptyString)
             (CreateNoteInput.tags input)
             (clock w (ticks w)) (clock w (ticks w)) in
  LocalMock.create input w =
  (Ok n, with_storage (NoteArray (n :: fst (loaded w2))) (snd (loaded w2))).
Proof.
  intros w2 n. unfold LocalMock.create. do 4 run. reflexivity.
Qed.

Lemma update_run i input w :
  LocalMock.update i input w =
  let w1 := snd (loaded w) in
  match list_find (fun n => Note.id n = i) (fst (loaded w)) with
  | None => (Throw NoteNotFound, w1)
  | Some (idx, old) =>
      let u := LocalMock.merge old input (clock w1 (ticks w1)) in
      (Ok u, with_storage (NoteArray (<[idx := u]> (fst (loaded w)))) (ticked 1 w1))
  end.
Proof.
  unfold LocalMock.update. run.
  destruct (list_find _ _) as [[idx old]|]; [|reflexivity].
  do 2 run. reflexivity.
Qed.

Lemma remove_run i w :
  LocalMock.remove i w =
  (Ok tt,
   with_storage
     (NoteArray (List.filter (fun n => negb (bool_decide (Note.id n = i))) (fst (loaded w))))
     (snd (loaded w))).
Proof.
  unfold LocalMock.remove. run. apply write_run.
Qed.

Lemma find_first_middle i (pre post : Notes) old :
  Note.id old = i ->
  (forall n, In n pre -> Note.id n <> i) ->
  list_find (fun n => Note.id n = i) (pre ++ old :: post) = Some (length pre, old).
Proof.
  intros Hold Hpre. apply list_find_Some. split; [|split].
  - rewrite lookup_app_r by lia. now rewrite Nat.sub_diag.
  - exact Hold.
  - intros j y Hj Hlt. rewrite lookup_app_l in Hj by lia.
    apply Hpre, list_elem_of_In, list_elem_of_lookup. eauto.
Qed.

Lemma find_first_absent i (arr : Notes) :
  (forall n, In n arr -> Note.id n <> i) ->
  list_find (fun n => Note.id n = i) arr = None.
Proof.
  intros H. apply list_find_None, Forall_forall.
  intros n Hn. now apply H, list_elem_of_In.
Qed.

Lemma or_else_empty s : or_else s EmptyString = s.
Proof. now destruct s. Qed.

(** The note that [create] returns is the one that [get] then finds. *)
Lemma create_get_run input w :
  let n := Note.mk (uid_at (dice w) (rolls w))
             (or_else (CreateNoteInput.title input) "Untitled")
             (CreateNoteInput.content input)
             (CreateNoteInput.tags input)
             (clock w (ticks w)) (clock w (ticks w)) in
  exists w1,
    LocalMock.create input w = (Ok n, w1) /\
    LocalMock.get (Note.id n) w1 = (Ok (Some n), w1) /\
    storage w1 = NoteArray (n :: fst (loaded (rolled 31 (ticked 1 w)))).
Proof.
  intros n. eexists. split; [|split].
  - rewrite create_run, or_else_empty. reflexivity.
  - rewrite get_run. erewrite loaded_array by reflexivity.
    cbn [fst snd List.find Note.id]. now rewrite bool_decide_eq_true_2.
  - reflexivity.
Qed.

(** ** Strings: substrings and letter case *)

Lemma startsWith_spec s q :
  startsWith s q = true <-> exists post, s = q +:+ post.
Proof.
  revert s. induction q as [|a q IH]; intros s; cbn.
  - split; [intros _; now exists s | reflexivity].
  - destruct s as [|b s].
    + split; [discriminate | intros [post E]; discriminate].
    + destruct (decide (a = b)) as [->|Hne].
      * rewrite IH. split; intros [post E]; exists post; [now rewrite E | now injection E].
      * split; [discriminate | intros [post E]; injection E; congruence].
Qed.

Lemma includes_spec s q :
  includes s q = true <-> exists pre post, s = pre +:+ q +:+ post.
Proof.
  induction s as [|c s IH].
  - cbn [includes]. rewrite orb_false_r, startsWith_spec. split.
    + intros [post E]. now exists EmptyString, post.
    + intros (pre & post & E). destruct pre; [now exists post|discriminate].
  - cbn [includes]. rewrite orb_true_iff, startsWith_spec, IH. split.
    + intros [[post E]|(pre & post & E)].
      * now exists EmptyString, post.
      * exists (String c pre), post. cbn. now rewrite E.
    + intros (pre & post & E). destruct pre as [|d pre].
      * left. now exists post.
      * right. cbn in E. injection E as _ E. now exists pre, post.
Qed.

(** The test of the source, [s.toLowerCase().includes(q.toLowerCase())]. *)
Lemma includes_lowered s q :
  includes (toLowerCase s) (toLowerCase q) = true <-> lowered_in q s.
Proof. apply includes_spec. Qed.

(** *** The lower case of a text is empty only when the text is *)

Lemma code_points_cons a s : exists c l, code_points (String a s) = c :: l.
Proof.
  cbn [code_points].
  repeat match goal with
         | |- context [if ?b then _ else _] => destruct b
         | |- context [match ?r with EmptyString => _ | String _ _ => _ end] => destruct r
         end; eauto.
Qed.

Lemma lower_point_cons before c after : exists d r, lower_point before c after = d :: r.
Proof.
  unfold lower_point.
  repeat match goal with
         | |- context [if ?b then _ else _] => destruct b
         end; eauto.
Qed.

Lemma utf8_cons c : exists b r, utf8 c = String b r.
Proof.
  unfold utf8.
  repeat match goal with
         | |- context [if ?b then _ else _] => destruct b
         end; eauto.
Qed.

Lemma toLowerCase_truthy s : truthy (toLowerCase s) = truthy s.
Proof.
  destruct s as [|a s]; [reflexivity|]. unfold toLowerCase.
  destruct (code_points_cons a s) as (c & l & ->). cbn [lower_points].
  destruct (lower_point_cons [] c l) as (d & r & ->). cbn [app text].
  now destruct (utf8_cons d) as (b & r' & ->).
Qed.

(** The lower case of some texts beyond ASCII: accents, a capital sigma in
    the middle and at the end of a word, and the capital I with a dot, whose
    lower case has two characters. *)
Example toLowerCase_samples :
  toLowerCase "ÉCOLE Zürich" = "école zürich" /\
  toLowerCase "ΌΣΟΣ" = "όσος" /\
  toLowerCase "ΑΣ" = "ας" /\
  toLowerCase "Σ" = "σ" /\
  code_points (toLowerCase "İ") = [0x69; 0x307].
Proof. vm_compute. repeat split. Qed.

(** *** ASCII text *)

Lemma lower_plain_app a b :
  lower_plain (a +:+ b) = lower_plain a +:+ lower_plain b.
Proof.
  induction a as [|c a IH]; simpl; [reflexivity|].
  now rewrite IH.
Qed.

Lemma lower_plain_split s x y :
  lower_plain s = x +:+ y ->
  exists a b, s = a +:+ b /\ lower_plain a = x /\ lower_plain b = y.
Proof.
  revert s. induction x as [|c x IH]; intros s E.
  - exists EmptyString, s. auto.
  - destruct s as [|d s]; cbn in E; [discriminate|].
    injection E as Ec Es. destruct (IH s Es) as (a & b & -> & Ha & Hb).
    exists (String d a), b. cbn. now rewrite Ec, Ha, Hb.
Qed.

Lemma plain_app a b : plain (a +:+ b) = plain a && plain b.
Proof.
  induction a as [|c a IH]; [reflexivity|].
  change (plain (String c (a +:+ b)) = plain (String c a) && plain b).
  cbn [plain]. now rewrite IH, andb_assoc.
Qed.

(** On an ASCII character the conversion is the one of the alphabet. *)
Lemma lower_point_ascii before c after :
  (byte_code c <? 0x80) = true ->
  text (lower_point before (byte_code c) after) = String (lower_ascii c) EmptyString.
Proof.
  destruct c as [[] [] [] [] [] [] [] []]; intros H; try discriminate H; reflexivity.
Qed.

Lemma text_app l k : text (l ++ k) = text l +:+ text k.
Proof.
  induction l as [|c l IH]; [reflexivity|].
  cbn [app text]. rewrite IH.
  generalize (utf8 c) (text l) (text k). clear.
  intros a b c. induction a as [|x a IH]; [reflexivity|].
  change (String x (a +:+ b +:+ c) = String x ((a +:+ b) +:+ c)). now rewrite IH.
Qed.

Lemma toLowerCase_plain s : plain s = true -> toLowerCase s = lower_plain s.
Proof.
  unfold toLowerCase. generalize (@nil Z).
  induction s as [|c s IH]; intros before H; [reflexivity|].
  cbn [plain] in H. apply andb_true_iff in H as [Hc Hs].
  cbn [code_points lower_plain]. rewrite Hc. cbn [lower_points].
  rewrite text_app, lower_point_ascii by exact Hc.
  now rewrite IH.
Qed.

Lemma letters_lower a b : In (a, b) letters -> lower_ascii a = b /\ lower_ascii b = b.
Proof.
  unfold letters. cbn [combine list_ascii_of_string].
  intros H. repeat (destruct H as [[= <- <-]|H]; [split; reflexivity|]). destruct H.
Qed.

Lemma lower_letters a : lower_ascii a = a \/ In (a, lower_ascii a) letters.
Proof.
  destruct a as [[] [] [] [] [] [] [] []];
    first [left; reflexivity | right; vm_compute; tauto].
Qed.

Lemma letters_capital a b c : In (a, c) letters -> In (b, c) letters -> a = b.
Proof.
  assert (H : forall x y, In (x, y) letters -> x = ascii_of_nat (nat_of_ascii y - 32)).
  { unfold letters. cbn [combine list_ascii_of_string]. intros x y H.
    repeat (destruct H as [[= <- <-]|H]; [reflexivity|]). destruct H. }
  intros Ha Hb. now rewrite (H a c Ha), (H b c Hb).
Qed.

Lemma same_letter_lower a b : lower_ascii a = lower_ascii b <-> same_letter a b.
Proof.
  unfold same_letter. split.
  - intros E. destruct (lower_letters a) as [Ha|Ha], (lower_letters b) as [Hb|Hb].
    + left. congruence.
    + right; right. rewrite <- E, Ha in Hb. exact Hb.
    + right; left. rewrite E, Hb in Ha. exact Ha.
    + left. rewrite E in Ha. exact (letters_capital _ _ _ Ha Hb).
  - intros [->|[H|H]]; [reflexivity| |]; apply letters_lower in H as [H1 H2]; congruence.
Qed.

Lemma same_text_lower a b : lower_plain a = lower_plain b <-> same_text a b.
Proof.
  revert b. induction a as [|x a IH]; intros [|y b]; cbn [lower_plain same_text];
    try (split; [discriminate | tauto]); [tauto|].
  rewrite <- IH, <- same_letter_lower. split; [intros [= H1 H2]; auto | intros [-> ->]; reflexivity].
Qed.

(** For ASCII texts, the test of the source decides whether [q] occurs in
    [s] when letter case is ignored. *)
Lemma lowered_in_plain q s :
  plain q = true -> plain s = true -> (lowered_in q s <-> ci_substring q s).
Proof.
  intros Hq Hs. unfold lowered_in, ci_substring.
  rewrite (toLowerCase_plain q Hq), (toLowerCase_plain s Hs). split.
  - intros (x & z & E).
    apply lower_plain_split in E as (pre & rest & -> & <- & E).
    apply lower_plain_split in E as (mid & post & -> & E & <-).
    exists pre, mid, post. split; [reflexivity|]. now apply same_text_lower.
  - intros (pre & mid & post & -> & E%same_text_lower).
    exists (lower_plain pre), (lower_plain post).
    now rewrite !lower_plain_app, E.
Qed.

Lemma hit_spec q n :
  LocalMock.hit (toLowerCase q) n = true <->
  lowered_in q (Note.title n) \/ lowered_in q (Note.content n)
  \/ exists t, In t (Note.tags n) /\ lowered_in q t.
Proof.
  unfold LocalMock.hit. rewrite !orb_true_iff, !includes_lowered, existsb_exists.
  split.
  - intros [[H|H]|(t & Ht & H)]; auto.
    right; right. exists t. now rewrite <- includes_lowered.
  - intros [H|[H|(t & Ht & H)]]; auto.
    right. exists t. now rewrite includes_lowered.
Qed.

(** ** Sorting *)

Section Sort.
Context {A : Type} (cmp : A -> A -> Z).

Lemma sort_insert_perm x l : Permutation (sort_insert cmp x l) (x :: l).
Proof.
  induction l as [|y r IH]; cbn [sort_insert]; [reflexivity|].
  destruct (cmp x y <=? 0); [reflexivity|].
  rewrite IH. apply perm_swap.
Qed.

Lemma sort_perm l : Permutation (sort cmp l) l.
Proof.
  induction l as [|x r IH]; cbn [sort]; [reflexivity|].
  now rewrite sort_insert_perm, IH.
Qed.

(** The sort is stable: elements that a test selects keep their order
    when the comparison puts none of them strictly before another. *)
Lemma sort_insert_filter (f : A -> bool) x l :
  (forall y, In y l -> f x = true -> f y = true -> cmp x y <= 0) ->
  List.filter f (sort_insert cmp x l) = List.filter f (x :: l).
Proof.
  induction l as [|y r IH]; intros H; cbn [sort_insert]; [reflexivity|].
  destruct (Z.leb_spec (cmp x y) 0) as [Hle|Hgt]; [reflexivity|].
  cbn [List.filter]. rewrite IH by (intros; apply H; cbn; auto).
  cbn [List.filter].
  destruct (f x) eqn:Ex, (f y) eqn:Ey; try reflexivity.
  specialize (H y (or_introl eq_refl) eq_refl Ey). lia.
Qed.

Lemma sort_stable (f : A -> bool) l :
  (forall x y, f x = true -> f y = true -> cmp x y <= 0) ->
  List.filter f (sort cmp l) = List.filter f l.
Proof.
  intros H. induction l as [|x r IH]; cbn [sort]; [reflexivity|].
  rewrite sort_insert_filter by auto. cbn [List.filter]. now rewrite IH.
Qed.
End Sort.

Lemma sort_insert_newest_first x l :
  newest_first l ->
  newest_first (sort_insert (fun a b => Note.updatedAt b - Note.updatedAt a) x l).
Proof.
  unfold newest_first. induction l as [|y r IH]; intros Hs; cbn [sort_insert].
  - repeat constructor.
  - apply StronglySorted_inv in Hs as [Hr Hy].
    destruct (Z.leb_spec (Note.updatedAt y - Note.updatedAt x) 0) as [Hle|Hgt].
    + constructor; [now constructor|].
      constructor; [lia|].
      eapply Forall_impl; [exact Hy|]. cbn beta. intros; lia.
    + constructor; [auto|].
      rewrite sort_insert_perm. constructor; [lia | exact Hy].
Qed.

Lemma sort_newest_first l :
  newest_first (sort (fun a b => Note.updatedAt b - Note.updatedAt a) l).
Proof.
  induction l as [|x r IH]; cbn [sort]; [constructor|].
  now apply sort_insert_newest_first.
Qed.

Lemma newest_first_filter f l :
  newest_first l -> newest_first (List.filter f l).
Proof.
  unfold newest_first. induction l as [|x r IH]; intros Hs; cbn [List.filter].
  - constructor.
  - apply StronglySorted_inv in Hs as [Hr Hx].
    destruct (f x); [|auto].
    constructor; [auto|].
    apply Forall_forall. intros y [Hy _]%list_elem_of_In%filter_In.
    rewrite Forall_forall in Hx. now apply Hx, list_elem_of_In.
Qed.

Lemma filter_split {A} (f : A -> bool) l :
  Permutation l (List.filter f l ++ List.filter (fun x => negb (f x)) l).
Proof.
  induction l as [|x r IH]; cbn [List.filter]; [reflexivity|].
  destruct (f x); cbn [negb app].
  - now constructor.
  - rewrite <- Permutation_middle. now constructor.
Qed.

(** ** C1 and C2: the remote client *)

Lemma loaded_sent w : loaded (sent w) = (fst (loaded w), sent (snd (loaded w))).
Proof. unfold loaded. cbn [sent storage]. now destruct (storage w). Qed.

Lemma list_ignores_requests q : ignores_requests (LocalMock.list q).
Proof. intros w. now rewrite !list_run, loaded_sent. Qed.

Lemma get_ignores_requests i : ignores_requests (LocalMock.get i).
Proof. intros w. now rewrite !get_run, loaded_sent. Qed.

Lemma create_ignores_requests input : ignores_requests (LocalMock.create input).
Proof.
  intros w. rewrite !create_run.
  change (rolled 31 (ticked 1 (sent w))) with (sent (rolled 31 (ticked 1 w))).
  now rewrite loaded_sent.
Qed.

Lemma update_ignores_requests i input : ignores_requests (LocalMock.update i input).
Proof.
  intros w. rewrite !update_run, loaded_sent. cbn [fst snd].
  now destruct (list_find _ _) as [[idx old]|].
Qed.

Lemma remove_ignores_requests i : ignores_requests (LocalMock.remove i).
Proof. intros w. now rewrite !remove_run, loaded_sent. Qed.

(** A request that fails makes [safeFetch] return [null]. *)
Lemma safeFetch_fails (fetch : Network) base A input method body w :
  match fetch A (requests w) (mkRequest base input method body) with
  | None => True
  | Some res => ok res = false
  end ->
  BackendClient.safeFetch fetch base A input method body w = (Ok None, sent w).
Proof.
  unfold BackendClient.safeFetch.
  destruct (fetch A _ _) as [res|]; [|reflexivity].
  now intros ->.
Qed.

(** A "404 Not Found" is not a success status. *)
Lemma not_found_is_not_ok {A} (res : Response A) : status res = 404 -> ok res = false.
Proof. unfold ok. now intros ->. Qed.

(** Whatever the store behind it, the [get] of the remote client hands a
    request answered with 404 over to that store. *)
Lemma get_on_404 (fetch : Network) base mock i w res :
  fetch Note (requests w) (mkRequest base (NoteRoute i) GET NoPayload) = Some res ->
  status res = 404 ->
  BackendClient.get fetch base mock i w = NotesAPI.get mock i (sent w).
Proof.
  intros Hf Hs. unfold BackendClient.get.
  rewrite (bind_ok _ _ w None (sent w)); [reflexivity|].
  apply safeFetch_fails. rewrite Hf. now apply not_found_is_not_ok.
Qed.

(** What [safeFetch] lets through is a success, so never a 404: the
    branch [res.status === 404] of [get] is dead, and [get] behaves as if
    that line were not there. *)
Lemma safeFetch_success (fetch : Network) base A input method body w res w' :
  BackendClient.safeFetch fetch base A input method body w = (Ok (Some res), w') ->
  ok res = true /\ status res <> 404.
Proof.
  unfold BackendClient.safeFetch.
  destruct (fetch A _ _) as [r|]; [|discriminate].
  destruct (ok r) eqn:Hok; [|discriminate].
  intros [= <- _]. split; [exact Hok|].
  intros H404. now rewrite (not_found_is_not_ok r H404) in Hok.
Qed.

Lemma get_never_sees_404 (fetch : Network) base mock i w :
  BackendClient.get fetch base mock i w =
  bind (BackendClient.safeFetch fetch base Note (NoteRoute i) GET NoPayload)
    (fun res => match res with
                | None => NotesAPI.get mock i
                | Some res => bind (BackendClient.res_json res) (fun n => ret (Some n))
                end) w.
Proof.
  unfold BackendClient.get, bind at 1 3.
  destruct (BackendClient.safeFetch _ _ _ _ _ _ w) as [[[res|]|e] w'] eqn:E;
    try reflexivity.
  apply safeFetch_success in E as [_ Hne].
  now rewrite (proj2 (Z.eqb_neq _ _) Hne).
Qed.

(** With a network that always fails, every operation of the remote
    client first counts its request and then is the operation of the
    store behind it. *)
Section Fallback.
Variable fetch : Network.
Variable base : string.
Hypothesis Hnet : always_fails fetch.

Ltac falls_back :=
  intros;
  cbn [createBackendClient NotesAPI.list NotesAPI.get NotesAPI.create
         NotesAPI.update NotesAPI.remove];
  unfold BackendClient.list, BackendClient.get, BackendClient.create,
    BackendClient.update, BackendClient.remove;
  erewrite bind_ok by (apply safeFetch_fails, Hnet).

Lemma list_falls_back q w :
  NotesAPI.list (createBackendClient fetch base createLocalMock) q w
  = after_request (LocalMock.list q w).
Proof. falls_back. apply list_ignores_requests. Qed.

Lemma get_falls_back i w :
  NotesAPI.get (createBackendClient fetch base createLocalMock) i w
  = after_request (LocalMock.get i w).
Proof. falls_back. apply get_ignores_requests. Qed.

Lemma create_falls_back input w :
  NotesAPI.create (createBackendClient fetch base createLocalMock) input w
  = after_request (LocalMock.create input w).
Proof. falls_back. apply create_ignores_requests. Qed.

Lemma update_falls_back i input w :
  NotesAPI.update (createBackendClient fetch base createLocalMock) i input w
  = after_request (LocalMock.update i input w).
Proof. falls_back. apply update_ignores_requests. Qed.

Lemma remove_falls_back i w :
  NotesAPI.remove (createBackendClient fetch base createLocalMock) i w
  = after_request (LocalMock.remove i w).
Proof. falls_back. apply remove_ignores_requests. Qed.

End Fallback.

(** C1.  When every call of [fetch] fails, each operation of the remote
    client gives the outcome of the same operation of the local store
    with the same arguments: the same result and the same state, but for
    the count of requests sent.  No failure of the network reaches the
    caller: [list], [get], [create] and [remove] return, and [update]
    throws only the "Note not found" of the local store. *)
Theorem fallback_transparency (fetch : Network) (base : string) :
  always_fails fetch ->
  let remote := createBackendClient fetch base createLocalMock in
  (forall q w, NotesAPI.list remote q w = after_request (LocalMock.list q w)) /\
  (forall i w, NotesAPI.get remote i w = after_request (LocalMock.get i w)) /\
  (forall input w,
      NotesAPI.create remote input w = after_request (LocalMock.create input w)) /\
  (forall i input w,
      NotesAPI.update remote i input w = after_request (LocalMock.update i input w)) /\
  (forall i w, NotesAPI.remove remote i w = after_request (LocalMock.remove i w)) /\
  (forall q w, exists l, fst (NotesAPI.list remote q w) = Ok l) /\
  (forall i w, exists o, fst (NotesAPI.get remote i w) = Ok o) /\
  (forall input w, exists n, fst (NotesAPI.create remote input w) = Ok n) /\
  (forall i input w, (exists n, fst (NotesAPI.update remote i input w) = Ok n)
                     \/ fst (NotesAPI.update remote i input w) = Throw NoteNotFound) /\
  (forall i w, fst (NotesAPI.remove remote i w) = Ok tt).
Proof.
  intros Hnet remote. subst remote.
  split; [intros; now apply list_falls_back|].
  split; [intros; now apply get_falls_back|].
  split; [intros; now apply create_falls_back|].
  split; [intros; now apply update_falls_back|].
  split; [intros; now apply remove_falls_back|].
  split; [|split; [|split; [|split]]].
  - intros q w. rewrite list_falls_back, list_run by exact Hnet. eexists. reflexivity.
  - intros i w. rewrite get_falls_back, get_run by exact Hnet. eexists. reflexivity.
  - intros input w. rewrite create_falls_back, create_run by exact Hnet.
    eexists. reflexivity.
  - intros i input w. rewrite update_falls_back, update_run by exact Hnet. cbv zeta.
    destruct (list_find _ _) as [[idx old]|]; [left; eexists|right]; reflexivity.
  - intros i w. rewrite remove_falls_back, remove_run by exact Hnet. reflexivity.
Qed.

Lemma fallback_transparency_witness :
  always_fails offline /\
  NotesAPI.list (createBackendClient offline "https://notes.example" createLocalMock)
    (Some "tips") fresh_browser
  = after_request (LocalMock.list (Some "tips") fresh_browser).
Proof.
  assert (H : always_fails offline) by (intros A k req; exact I).
  split; [exact H|].
  exact (proj1 (fallback_transparency offline "https://notes.example" H)
           (Some "tips") fresh_browser).
Defined.

(** C2 fails on the code.  The backend answers "404 Not Found" for a note
    that the local store still holds: [get] returns that local note, not
    the absent result.  [safeFetch] has already turned the 404 into the
    fallback, so the test [res.status === 404] of [get] is never reached
    with a 404. *)
Theorem get_404_answers_from_local_store :
  let n := Note.mk "n1" "Kept on this device" "text" [] 5 5 in
  let w := mkWorld (NoteArray [n]) (fun _ => 9) 0 (fun _ => 0) 0 0 in
  let remote := createBackendClient net404 "https://notes.example" createLocalMock in
  fst (NotesAPI.get remote "n1" w) = Ok (Some n) /\
  fst (NotesAPI.get remote "n1" w) <> Ok None.
Proof.
  intros n w remote.
  assert (E : NotesAPI.get remote "n1" w = LocalMock.get "n1" (sent w)).
  { apply (get_on_404 net404 "https://notes.example" createLocalMock "n1" w
             (mkResponse 404 None)); reflexivity. }
  rewrite E, get_run. split; [reflexivity | discriminate].
Qed.

(** ** C3: list *)

Lemma truthy_false s : truthy s = false <-> s = EmptyString.
Proof. destruct s; cbn; split; congruence. Qed.

(** C3, as amended.  When the storage holds the collection [arr],
    [list query] returns, without changing anything, a list [res] such
    that [arr] is [res] together with the notes left out, every note of
    [res] is wanted and no note left out is: a note is wanted when the
    query is omitted or empty, or when the lower case of its title, of its
    content or of one of its tags contains the lower case of the query,
    lower case being what [toLowerCase] gives.  [res] is ordered by
    [updatedAt], the most recent first.  For a query and a text in ASCII
    the lower case of the one occurs in the lower case of the other
    exactly when the query occurs in the text, letter case ignored. *)
Theorem list_returns_matches_newest_first
    (w : World) (arr : Notes) (query : option string) :
  storage w = NoteArray arr ->
  (exists res dropped,
    LocalMock.list query w = (Ok res, w) /\
    Permutation arr (res ++ dropped) /\
    Forall (wanted query) res /\
    Forall (fun n => ~ wanted query n) dropped /\
    newest_first res) /\
  (forall q s, plain q = true -> plain s = true ->
     (lowered_in q s <-> ci_substring q s)).
Proof.
  intros Hst. split; [|exact lowered_in_plain].
  rewrite list_run, (loaded_array _ _ Hst). cbn [fst snd].
  set (all := sort _ arr).
  assert (Hperm : Permutation arr all) by (symmetry; apply sort_perm).
  assert (Hsorted : newest_first all) by apply sort_newest_first.
  destruct (truthy_opt query) eqn:Hq.
  - destruct query as [q|]; [|discriminate]. cbn [truthy_opt default] in *.
    exists (List.filter (LocalMock.hit (toLowerCase q)) all),
           (List.filter (fun n => negb (LocalMock.hit (toLowerCase q) n)) all).
    split; [reflexivity|]. split; [|split; [|split]].
    + rewrite Hperm at 1. apply filter_split.
    + apply Forall_forall. intros n [_ Hn]%list_elem_of_In%filter_In.
      cbn [wanted]. right. now apply hit_spec.
    + apply Forall_forall. intros n [_ Hn]%list_elem_of_In%filter_In.
      cbn [wanted]. intros [->|H]; [discriminate|].
      apply hit_spec in H. rewrite H in Hn. discriminate.
    + now apply newest_first_filter.
  - exists all, []. split; [reflexivity|]. rewrite app_nil_r.
    split; [exact Hperm|]. split; [|split; [constructor | exact Hsorted]].
    apply Forall_forall. intros n _. destruct query as [q|]; cbn [wanted]; [|exact I].
    left. now apply truthy_false.
Qed.

Lemma list_returns_matches_newest_first_witness :
  let n1 := welcome "id-1" 10 in
  let n2 := tips "id-2" 20 in
  let w := mkWorld (NoteArray [n1; n2]) (fun _ => 30) 0 (fun _ => 0) 0 0 in
  (exists res dropped,
    LocalMock.list (Some "TIPS") w = (Ok res, w) /\
    Permutation [n1; n2] (res ++ dropped) /\
    Forall (wanted (Some "TIPS")) res /\
    Forall (fun n => ~ wanted (Some "TIPS") n) dropped /\
    newest_first res) /\
  (lowered_in "TIPS" "Keyboard Tips" <-> ci_substring "TIPS" "Keyboard Tips").
Proof.
  intros n1 n2 w.
  destruct (list_returns_matches_newest_first w [n1; n2] (Some "TIPS") eq_refl)
    as [Hlist Hplain].
  split; [exact Hlist|]. apply Hplain; reflexivity.
Defined.

(** C3 as stated fails beyond ASCII, where the lower case of a letter can
    depend on its place: a capital sigma at the end of a word becomes the
    final small sigma, a capital sigma on its own the other small sigma.
    The title of the note contains the query, in the very same letters,
    and [list] does not return the note. *)
Lemma capital_sigma_in_title_not_found :
  let n := Note.mk "n1" "ΑΣ" "text" [] 5 5 in
  let w := mkWorld (NoteArray [n]) (fun _ => 9) 0 (fun _ => 0) 0 0 in
  (exists pre post, Note.title n = pre +:+ "Σ" +:+ post) /\
  LocalMock.list (Some "Σ") w = (Ok [], w) /\
  LocalMock.list (Some "ΑΣ") w = (Ok [n], w).
Proof.
  intros n w. split; [|split].
  - exists "Α", EmptyString. reflexivity.
  - vm_compute. reflexivity.
  - vm_compute. reflexivity.
Qed.

(** The search scenario of the specification: among the two demonstration
    notes, [list "tips"] returns the second one only, and [list] of the
    empty query
    returns both, the most recently updated first. *)
Example search_tips :
  let n1 := welcome "id-1" 10 in
  let n2 := tips "id-2" 20 in
  let w := mkWorld (NoteArray [n1; n2]) (fun _ => 30) 0 (fun _ => 0) 0 0 in
  LocalMock.list (Some "tips") w = (Ok [n2], w) /\
  LocalMock.list (Some EmptyString) w = (Ok [n2; n1], w) /\
  LocalMock.list None w = (Ok [n2; n1], w).
Proof. vm_compute. repeat split. Qed.

(** Letter case is ignored beyond ASCII as well, where no letter changes
    with its place. *)
Example search_with_accents :
  let n := Note.mk "n1" "ÉCOLE" "text" ["Zürich"] 5 5 in
  let w := mkWorld (NoteArray [n]) (fun _ => 9) 0 (fun _ => 0) 0 0 in
  LocalMock.list (Some "école") w = (Ok [n], w) /\
  LocalMock.list (Some "ZÜR") w = (Ok [n], w) /\
  LocalMock.list (Some "ecole") w = (Ok [], w).
Proof. vm_compute. repeat split. Qed.

(** ** C4: create, then get *)

(** C4, as amended.  For every create input and every state of the
    browser, [create input] returns a note and [get] on the id of that
    note returns the same note; its content and tags are those of the
    input, its title is the title of the input when that is not empty and
    ["Untitled"] when it is empty, and its [createdAt] equals its
    [updatedAt]. *)
Theorem create_then_get_roundtrip (input : CreateNoteInput.t) (w : World) :
  exists n w1,
    LocalMock.create input w = (Ok n, w1) /\
    LocalMock.get (Note.id n) w1 = (Ok (Some n), w1) /\
    Note.title n = (if truthy (CreateNoteInput.title input)
                    then CreateNoteInput.title input else "Untitled") /\
    Note.content n = CreateNoteInput.content input /\
    Note.tags n = CreateNoteInput.tags input /\
    Note.createdAt n = Note.updatedAt n.
Proof.
  destruct (create_get_run input w) as (w1 & Hc & Hg & _).
  eexists _, w1. split; [exact Hc|]. split; [exact Hg|].
  cbn [Note.title Note.content Note.tags Note.createdAt Note.updatedAt].
  split; [reflexivity|]. now split; [|split].
Qed.

(** C4 as stated fails for an input with an empty title: the note that
    comes back is titled ["Untitled"], not the empty title. *)
Lemma create_empty_title_not_kept :
  let input := CreateNoteInput.mk EmptyString "body" ["t"] in
  exists n w1,
    LocalMock.create input fresh_browser = (Ok n, w1) /\
    LocalMock.get (Note.id n) w1 = (Ok (Some n), w1) /\
    Note.title n = "Untitled" /\
    Note.title n <> CreateNoteInput.title input.
Proof.
  intros input. destruct (create_get_run input fresh_browser) as (w1 & Hc & Hg & _).
  eexists _, w1. split; [exact Hc|]. split; [exact Hg|].
  cbn [Note.title]. split; [reflexivity | discriminate].
Qed.

(** ** C5: update is partial *)

Lemma first_with_id (arr : Notes) i :
  (exists n, In n arr /\ Note.id n = i) ->
  exists pre old post,
    arr = pre ++ old :: post /\ Note.id old = i /\
    (forall n, In n pre -> Note.id n <> i).
Proof.
  induction arr as [|x r IH]; intros (n & Hin & Hid); [destruct Hin|].
  destruct (decide (Note.id x = i)) as [Hx|Hx].
  - exists [], x, r. repeat split; [exact Hx | intros m []].
  - destruct IH as (pre & old & post & -> & Hold & Hpre).
    { destruct Hin as [->|Hin]; [contradiction | eauto]. }
    exists (x :: pre), old, post. repeat split; [exact Hold|].
    intros m [<-|Hm]; auto.
Qed.

(** C5, as amended.  When the collection holds a note with the id [i],
    [update i input] returns a note [u] and stores it in the place of
    [old], the first note with that id, all other notes staying as they
    are; [u] has the id and the [createdAt] of [old], each of title,
    content and tags is the value given in the input, or that of [old]
    when the input leaves it out, and [updatedAt] is the reading of the
    clock at the call.  So [updatedAt] is not below [createdAt] when the
    clock is not behind the creation; it is equal to it when the clock
    has not advanced. *)
Theorem update_merges_supplied_fields
    (w : World) (arr : Notes) (i : NoteID) (input : UpdateNoteInput.t) :
  storage w = NoteArray arr ->
  (exists n, In n arr /\ Note.id n = i) ->
  exists pre old post u,
    arr = pre ++ old :: post /\
    Note.id old = i /\
    (forall n, In n pre -> Note.id n <> i) /\
    LocalMock.update i input w
      = (Ok u, with_storage (NoteArray (pre ++ u :: post)) (ticked 1 w)) /\
    Note.id u = i /\
    Note.createdAt u = Note.createdAt old /\
    Note.title u = default (Note.title old) (UpdateNoteInput.title input) /\
    Note.content u = default (Note.content old) (UpdateNoteInput.content input) /\
    Note.tags u = default (Note.tags old) (UpdateNoteInput.tags input) /\
    Note.updatedAt u = clock w (ticks w) /\
    (Note.createdAt old <= clock w (ticks w) -> Note.createdAt u <= Note.updatedAt u).
Proof.
  intros Hst Hex.
  destruct (first_with_id arr i Hex) as (pre & old & post & -> & Hold & Hpre).
  exists pre, old, post, (LocalMock.merge old input (clock w (ticks w))).
  split; [reflexivity|]. split; [exact Hold|]. split; [exact Hpre|]. split.
  - rewrite update_run, (loaded_array _ _ Hst). cbn [fst snd].
    rewrite (find_first_middle i) by auto.
    cbv zeta. do 3 f_equal.
    replace (length pre) with (length pre + 0)%nat by lia.
    now rewrite insert_app_r.
  - cbn [LocalMock.merge Note.id Note.createdAt Note.title Note.content
           Note.tags Note.updatedAt].
    split; [exact Hold|]. do 5 (split; [reflexivity|]). auto.
Qed.

Lemma update_merges_supplied_fields_witness :
  let old := Note.mk "a" "T" "C" ["g"] 5 5 in
  let w := mkWorld (NoteArray [old]) (fun _ => 9) 0 (fun _ => 0) 0 0 in
  exists pre old' post u,
    [old] = pre ++ old' :: post /\
    Note.id old' = "a" /\
    (forall n, In n pre -> Note.id n <> "a") /\
    LocalMock.update "a" (UpdateNoteInput.mk None (Some "x") None) w
      = (Ok u, with_storage (NoteArray (pre ++ u :: post)) (ticked 1 w)) /\
    Note.id u = "a" /\
    Note.createdAt u = Note.createdAt old' /\
    Note.title u = default (Note.title old') None /\
    Note.content u = default (Note.content old') (Some "x") /\
    Note.tags u = default (Note.tags old') None /\
    Note.updatedAt u = 9 /\
    (Note.createdAt old' <= 9 -> Note.createdAt u <= Note.updatedAt u).
Proof.
  intros old w.
  apply (update_merges_supplied_fields w [old] "a"
           (UpdateNoteInput.mk None (Some "x") None)).
  - reflexivity.
  - exists old. split; [now left | reflexivity].
Defined.

(** C5 as stated fails when the clock has not advanced between the
    creation and the update: [updatedAt] is then equal to [createdAt],
    not greater. *)
Lemma update_same_millisecond_not_later :
  exists n w1 u w2,
    LocalMock.create (CreateNoteInput.mk "T" "C" []) stuck_browser = (Ok n, w1) /\
    LocalMock.update (Note.id n) (UpdateNoteInput.mk None (Some "x") None) w1
      = (Ok u, w2) /\
    ~ (Note.updatedAt u > Note.createdAt u).
Proof.
  do 4 eexists. split; [|split].
  - rewrite create_run. reflexivity.
  - rewrite update_run. erewrite loaded_array by reflexivity.
    cbn [fst snd list_find]. rewrite decide_True by reflexivity.
    reflexivity.
  - cbn. lia.
Qed.

(** ** C6: update of an id that is not stored *)

Lemma demo_ids w n : In n (demo w) ->
  Note.id n = uid_at (dice w) (rolls w) \/ Note.id n = uid_at (dice w) (31 + rolls w).
Proof.
  unfold demo, welcome, tips.
  intros [<-|[<-|[]]]; [left|right]; reflexivity.
Qed.

(** C6 as stated fails when the slot holds no collection: on a first
    visit [update] of an id that is not stored reports "Note not found",
    but the read it starts with has written the two demonstration notes,
    so the persisted state is not what it was. *)
Lemma update_absent_id_on_first_visit_writes :
  let input := UpdateNoteInput.mk (Some "x") None None in
  let w1 := snd (LocalMock.update "nonexistent-id" input fresh_browser) in
  storage fresh_browser = NoItem /\
  fst (LocalMock.update "nonexistent-id" input fresh_browser) = Throw NoteNotFound /\
  storage w1 = NoteArray (demo fresh_browser) /\
  map Note.title (collection w1) = ["Welcome to Notes"; "Keyboard Tips"].
Proof. vm_compute. repeat split. Qed.

(** C6, as amended.  [update i input] throws "Note not found" when no
    stored note has the id [i].  When the storage holds a collection, the
    browser state is left as it was: nothing is written.  When the slot
    holds no collection (it is missing, empty, malformed or not an array),
    the read inside [update] reseeds first: the state is the one after a
    reseed, with the two demonstration notes in the slot, and the error is
    thrown for every id that is not one of theirs. *)
Theorem update_absent_id_not_found
    (w : World) (i : NoteID) (input : UpdateNoteInput.t) :
  (forall arr, storage w = NoteArray arr ->
     (forall n, In n arr -> Note.id n <> i) ->
     LocalMock.update i input w = (Throw NoteNotFound, w)) /\
  (corrupt (storage w) ->
     (forall n, In n (demo w) -> Note.id n <> i) ->
     LocalMock.update i input w = (Throw NoteNotFound, reseeded w) /\
     storage (reseeded w) = NoteArray (demo w)).
Proof.
  split.
  - intros arr Hst Habs.
    rewrite update_run, (loaded_array _ _ Hst). cbn [fst snd].
    now rewrite find_first_absent.
  - intros Hc Habs. split; [|reflexivity].
    rewrite update_run, (loaded_corrupt _ Hc). cbn [fst snd].
    now rewrite find_first_absent.
Qed.

Lemma update_absent_id_not_found_witness :
  let w := mkWorld (NoteArray [Note.mk "a" "T" "C" [] 5 5])
             (fun _ => 9) 0 (fun _ => 0) 0 0 in
  let input := UpdateNoteInput.mk (Some "x") None None in
  LocalMock.update "nonexistent-id" input w = (Throw NoteNotFound, w) /\
  LocalMock.update "nonexistent-id" input fresh_browser
  = (Throw NoteNotFound, reseeded fresh_browser) /\
  storage (reseeded fresh_browser) = NoteArray (demo fresh_browser).
Proof.
  intros w input. split.
  - apply (proj1 (update_absent_id_not_found w "nonexistent-id" input)
             [Note.mk "a" "T" "C" [] 5 5]).
    + reflexivity.
    + intros n [<-|[]]. discriminate.
  - apply (proj2 (update_absent_id_not_found fresh_browser "nonexistent-id" input)).
    + exact I.
    + intros n Hn Hid. apply demo_ids in Hn. rewrite Hid in Hn.
      vm_compute in Hn. destruct Hn as [Hn|Hn]; discriminate Hn.
Defined.

(** ** C7: reseeding *)

Lemma sort_demo w :
  sort (fun a b => Note.updatedAt b - Note.updatedAt a) (demo w) = demo w.
Proof.
  unfold demo, welcome, tips. cbn [sort sort_insert Note.updatedAt].
  now rewrite Z.sub_diag.
Qed.

(** On an array of notes the unchecked operations are those of the local
    store. *)
Lemma unchecked_get_notes i (arr : Notes) :
  Unchecked.get i (map Some arr)
  = Unchecked.Returns (List.find (fun n => bool_decide (Note.id n = i)) arr).
Proof.
  induction arr as [|x r IH]; cbn [map Unchecked.get Unchecked.id_of List.find];
    [reflexivity|].
  now destruct (bool_decide (Note.id x = i)).
Qed.

Lemma unchecked_remove_notes i (arr : Notes) :
  Unchecked.remove i (map Some arr)
  = Unchecked.Returns
      (map Some (List.filter (fun n => negb (bool_decide (Note.id n = i))) arr)).
Proof.
  induction arr as [|x r IH];
    cbn [map Unchecked.remove Unchecked.id_of List.filter]; [reflexivity|].
  rewrite IH. now destruct (bool_decide (Note.id x = i)).
Qed.

(** So on a stored array of notes, [get] and [remove] of the local store
    are the unchecked operations on that array. *)
Lemma unchecked_agrees w (arr : Notes) i :
  storage w = NoteArray arr ->
  (exists o, fst (LocalMock.get i w) = Ok o /\
             Unchecked.get i (map Some arr) = Unchecked.Returns o) /\
  Unchecked.remove i (map Some arr)
  = Unchecked.Returns (map Some (collection (snd (LocalMock.remove i w)))).
Proof.
  intros Hst. rewrite unchecked_get_notes, unchecked_remove_notes.
  rewrite get_run, remove_run, (loaded_array _ _ Hst).
  split; [eexists; split|]; reflexivity.
Qed.

Lemma unchecked_remove_null i all :
  In None all -> Unchecked.remove i all = Unchecked.TypeError.
Proof.
  induction all as [|x r IH]; intros Hin; [destruct Hin|].
  cbn [Unchecked.remove]. destruct x as [n|]; cbn [Unchecked.id_of]; [|reflexivity].
  rewrite IH; [reflexivity|]. destruct Hin as [Hx|Hin]; [discriminate | exact Hin].
Qed.

Lemma unchecked_get_null i (pre : Notes) post :
  (forall n, In n pre -> Note.id n <> i) ->
  Unchecked.get i (map Some pre ++ None :: post) = Unchecked.TypeError.
Proof.
  induction pre as [|x r IH]; intros Hpre; cbn [map app Unchecked.get Unchecked.id_of];
    [reflexivity|].
  rewrite bool_decide_eq_false_2 by (apply Hpre; now left).
  apply IH. intros n Hn. apply Hpre. now right.
Qed.

(** C7 as stated fails on a stored array that holds something else than
    notes.  The slot holds the JSON of a note followed by [null]: [read]
    returns that array without a look at its elements, nothing is
    reseeded, and [get] and [remove] throw a [TypeError] at [null.id]. *)
Lemma stored_null_makes_get_and_remove_throw :
  let a := Note.mk "a" "T" "C" [] 5 5 in
  Unchecked.get "b" [Some a; None] = Unchecked.TypeError /\
  Unchecked.remove "a" [Some a; None] = Unchecked.TypeError /\
  Unchecked.get "a" [None] = Unchecked.TypeError.
Proof. repeat split. Qed.

(** C7, as amended.  When the storage slot is missing, empty, malformed or
    not an array, [list()] returns exactly the two demonstration notes,
    "Welcome to Notes" first and "Keyboard Tips" second, and the slot then
    holds that collection.  No operation throws because of such a slot:
    [list], [get], [create] and [remove] return, and [update] returns or
    reports that the note is not found; each of them leaves a collection
    in the slot.  A stored array is used as it is: when it holds [null],
    [remove] throws a [TypeError], and so does [get] unless a note with
    the id comes before the [null]. *)
Theorem corrupt_storage_reseeds (w : World) :
  (corrupt (storage w) ->
   LocalMock.list None w = (Ok (demo w), reseeded w) /\
   storage (reseeded w) = NoteArray (demo w) /\
   map Note.title (demo w) = ["Welcome to Notes"; "Keyboard Tips"] /\
   map Note.tags (demo w) = [["welcome"; "demo"]; ["tips"]] /\
   (forall q, exists l, LocalMock.list q w = (Ok l, reseeded w)) /\
   (forall i, exists o, LocalMock.get i w = (Ok o, reseeded w)) /\
   (forall input, exists n w',
       LocalMock.create input w = (Ok n, w') /\ ~ corrupt (storage w')) /\
   (forall i input,
       (exists u w', LocalMock.update i input w = (Ok u, w') /\ ~ corrupt (storage w'))
       \/ LocalMock.update i input w = (Throw NoteNotFound, reseeded w)) /\
   (forall i, exists w',
       LocalMock.remove i w = (Ok tt, w') /\ ~ corrupt (storage w'))) /\
  (forall i all, In None all -> Unchecked.remove i all = Unchecked.TypeError) /\
  (forall i (pre : Notes) post,
      (forall n, In n pre -> Note.id n <> i) ->
      Unchecked.get i (map Some pre ++ None :: post) = Unchecked.TypeError).
Proof.
  split; [|split; [exact unchecked_remove_null | exact unchecked_get_null]].
  intros Hc. pose proof (loaded_corrupt w Hc) as Hl.
  split; [|split; [|split; [|split; [|split; [|split; [|split; [|split]]]]]]].
  - rewrite list_run, Hl. cbn [fst snd truthy_opt]. now rewrite sort_demo.
  - reflexivity.
  - reflexivity.
  - reflexivity.
  - intros q. eexists. rewrite list_run, Hl. reflexivity.
  - intros i. eexists. rewrite get_run, Hl. reflexivity.
  - intros input. do 2 eexists. split; [apply create_run|].
    cbn [with_storage storage corrupt]. tauto.
  - intros i input. rewrite update_run, Hl. cbn [fst snd].
    destruct (list_find _ _) as [[idx old]|].
    + left. do 2 eexists. split; [reflexivity|].
      cbn [with_storage storage corrupt]. tauto.
    + right. reflexivity.
  - intros i. eexists. split; [apply remove_run|].
    cbn [with_storage storage corrupt]. tauto.
Qed.

Lemma corrupt_storage_reseeds_witness :
  LocalMock.list None fresh_browser = (Ok (demo fresh_browser), reseeded fresh_browser).
Proof.
  exact (proj1 (proj1 (corrupt_storage_reseeds fresh_browser) I)).
Defined.

(** ** C9: the invariants of the collection *)

(** C9 as stated fails: ids come from [Math.random] and nothing checks
    them against the stored ones, and timestamps come from the wall
    clock.  With a random source that repeats itself, two calls of
    [create] store two notes with the same id; with a clock that was set
    back, the [update] that follows stores a note that was updated before
    it was created. *)
Lemma repeated_ids_and_clock_set_back :
  let input := CreateNoteInput.mk "T" "C" [] in
  let change := UpdateNoteInput.mk None (Some "x") None in
  let ops := [ OCreate input; OCreate input;
               OUpdate "00000000-0000-4000-8000-000000000000" change ] in
  ~ NoDup (ids (collection (run ops erratic_browser))) /\
  Exists (fun n => Note.updatedAt n < Note.createdAt n)
    (collection (run ops erratic_browser)).
Proof.
  intros input change ops.
  assert (E : collection (run ops erratic_browser)
              = [ Note.mk "00000000-0000-4000-8000-000000000000" "T" "x" [] 999 998;
                  Note.mk "00000000-0000-4000-8000-000000000000" "T" "C" [] 1000 1000 ])
    by (vm_compute; reflexivity).
  rewrite E. split.
  - cbn [ids map Note.id]. intros H. apply NoDup_cons in H as [H _].
    apply H, list_elem_of_In. now left.
  - constructor. cbn [Note.updatedAt Note.createdAt]. lia.
Qed.

Lemma nodup_app_l {A} (l k : list A) : NoDup (l ++ k) -> NoDup l.
Proof. rewrite NoDup_app. tauto. Qed.

Lemma nodup_middle {A} (l k : list A) a : NoDup (l ++ a :: k) -> NoDup (a :: l ++ k).
Proof.
  rewrite !NoDup_ListNoDup. apply Permutation_NoDup.
  symmetry. apply Permutation_middle.
Qed.

Lemma next_ids_ext w w' m :
  dice w' = dice w -> rolls w' = rolls w -> next_ids w' m = next_ids w m.
Proof. unfold next_ids. now intros -> ->. Qed.

Lemma next_ids_S w m :
  next_ids w (S m) = uid_at (dice w) (rolls w) :: next_ids (rolled 31 w) m.
Proof.
  unfold next_ids. cbn [seq map rolled dice rolls].
  rewrite <- seq_shift, map_map.
  replace (31 * 0 + rolls w)%nat with (rolls w) by lia.
  apply (f_equal (cons _)), map_ext. intros k.
  now replace (31 * S k + rolls w)%nat with (31 * k + (31 + rolls w))%nat by lia.
Qed.

Lemma loaded_clock w : clock (snd (loaded w)) = clock w.
Proof. unfold loaded. now destruct (storage w). Qed.

Lemma loaded_ticks w : (ticks w <= ticks (snd (loaded w)))%nat.
Proof.
  unfold loaded.
  destruct (storage w); cbn [snd reseeded with_storage rolled ticked ticks]; lia.
Qed.

Lemma loaded_rolls w : rolls (snd (loaded w)) = (31 * seeds w + rolls w)%nat.
Proof.
  unfold loaded, seeds.
  destruct (storage w); cbn [snd reseeded with_storage rolled ticked rolls]; lia.
Qed.

Lemma loaded_collection w : collection (snd (loaded w)) = fst (loaded w).
Proof. unfold collection. now rewrite storage_loaded. Qed.

Lemma reseeded_ids w m :
  ids (demo w) ++ next_ids (reseeded w) m = next_ids w (S (S m)).
Proof.
  rewrite !next_ids_S.
  unfold demo, welcome, tips, ids. cbn [map Note.id app rolled dice rolls].
  do 2 apply (f_equal (cons _)).
  apply next_ids_ext.
  - reflexivity.
  - cbn [reseeded with_storage rolled ticked rolls]. lia.
Qed.

(** A read moves the ids of a reseed from the ids to come to the ids in
    store. *)
Lemma loaded_ids w m :
  ids (fst (loaded w)) ++ next_ids (snd (loaded w)) m
  = ids (collection w) ++ next_ids w (seeds w + m).
Proof.
  unfold loaded, seeds, collection.
  destruct (storage w) eqn:E; cbn [fst snd]; try exact (reseeded_ids w m).
  reflexivity.
Qed.

Lemma ids_insert (arr : Notes) idx old u :
  arr !! idx = Some old -> Note.id u = Note.id old -> ids (<[idx := u]> arr) = ids arr.
Proof.
  intros Hl Hid. unfold ids. revert idx Hl.
  induction arr as [|x r IH]; intros [|idx] Hl; cbn in *; try discriminate.
  - injection Hl as ->. now rewrite Hid.
  - now rewrite IH.
Qed.

Lemma nodup_ids_filter (p : Note -> bool) (arr : Notes) (rest : list NoteID) :
  NoDup (ids arr ++ rest) -> NoDup (ids (List.filter p arr) ++ rest).
Proof.
  rewrite !NoDup_ListNoDup.
  unfold ids. induction arr as [|x r IH]; cbn [List.filter map app]; [auto|].
  intros [Hx Hr]%NoDup_cons_iff. destruct (p x); [|auto].
  cbn [map app]. apply NoDup_cons_iff. split; [|auto].
  intros Hin. apply Hx. apply in_app_iff in Hin as [Hin|Hin]; apply in_app_iff; [left|now right].
  apply in_map_iff in Hin as (n & Hn & Hf%filter_In). apply in_map_iff. exists n. tauto.
Qed.

(** *** The ids *)

(** One operation uses up the ids it draws: when the ids in store and the
    ids to come were all different before, they are so afterwards. *)
Lemma step_fresh op w m : fresh_ids w (draws op w + m) -> fresh_ids (step w op) m.
Proof.
  unfold fresh_ids, draws. intros Hf.
  assert (Hl : forall k, (k + seeds w + m)%nat = (k + (seeds w + m))%nat) by (intros; lia).
  destruct op as [q|i|input|i input|i]; cbn [step]; rewrite Hl in Hf; cbn [Nat.add] in Hf.
  - (* list *)
    rewrite list_run. cbn [snd]. now rewrite loaded_collection, loaded_ids.
  - (* get *)
    rewrite get_run. cbn [snd]. now rewrite loaded_collection, loaded_ids.
  - (* create *)
    rewrite create_run. cbv zeta. cbn [snd].
    set (w2 := rolled 31 (ticked 1 w)).
    unfold collection. cbn [with_storage storage ids map Note.id].
    change (NoDup (uid_at (dice w) (rolls w)
                     :: (ids (fst (loaded w2)) ++ next_ids (snd (loaded w2)) m))).
    rewrite loaded_ids.
    change (collection w2) with (collection w). change (seeds w2) with (seeds w).
    replace (next_ids w2 (seeds w + m)) with (next_ids (rolled 31 w) (seeds w + m))
      by (apply next_ids_ext; reflexivity).
    apply nodup_middle. now rewrite <- next_ids_S.
  - (* update *)
    rewrite update_run. cbv zeta.
    destruct (list_find _ _) as [[idx old]|] eqn:Hfind; cbn [snd].
    + apply list_find_Some in Hfind as (Hlook & _ & _).
      unfold collection. cbn [with_storage storage].
      erewrite ids_insert; [|exact Hlook|reflexivity].
      change (NoDup (ids (fst (loaded w)) ++ next_ids (snd (loaded w)) m)).
      now rewrite loaded_ids.
    + now rewrite loaded_collection, loaded_ids.
  - (* remove *)
    rewrite remove_run. cbn [snd].
    unfold collection. cbn [with_storage storage].
    apply nodup_ids_filter.
    change (NoDup (ids (fst (loaded w)) ++ next_ids (snd (loaded w)) m)).
    now rewrite loaded_ids.
Qed.

Lemma run_fresh ops :
  forall w m, fresh_ids w (drawn ops w + m) -> fresh_ids (run ops w) m.
Proof.
  induction ops as [|op rest IH]; intros w m Hf; [exact Hf|].
  change (run (op :: rest) w) with (run rest (step w op)).
  apply IH, step_fresh. cbn [drawn] in Hf.
  now replace (draws op w + (drawn rest (step w op) + m))%nat
    with (draws op w + drawn rest (step w op) + m)%nat by lia.
Qed.

(** [draws] counts the ids that an operation takes from the random
    source, 31 values each. *)
Lemma step_rolls op w : rolls (step w op) = (31 * draws op w + rolls w)%nat.
Proof.
  unfold draws. destruct op as [q|i|input|i input|i]; cbn [step].
  - rewrite list_run. cbn [snd]. rewrite loaded_rolls. lia.
  - rewrite get_run. cbn [snd]. rewrite loaded_rolls. lia.
  - rewrite create_run. cbv zeta. cbn [snd with_storage rolls].
    rewrite loaded_rolls. cbn [rolled ticked rolls].
    change (seeds (rolled 31 (ticked 1 w))) with (seeds w). lia.
  - rewrite update_run. cbv zeta.
    destruct (list_find _ _) as [[idx old]|]; cbn [snd with_storage ticked rolls];
      rewrite loaded_rolls; lia.
  - rewrite remove_run. cbn [snd with_storage rolls]. rewrite loaded_rolls. lia.
Qed.

Lemma run_rolls ops :
  forall w, rolls (run ops w) = (31 * drawn ops w + rolls w)%nat.
Proof.
  induction ops as [|op rest IH]; intros w; [reflexivity|].
  change (run (op :: rest) w) with (run rest (step w op)).
  rewrite IH, step_rolls. cbn [drawn]. lia.
Qed.

(** *** The timestamps *)

Lemma on_time_later arr w w' upto :
  clock w' = clock w -> (ticks w <= ticks w')%nat ->
  on_time arr w upto -> on_time arr w' upto.
Proof.
  unfold on_time. intros Hc Ht H j Hj. rewrite Hc.
  destruct (H j ltac:(lia)) as [Hm Ha]. split; [|exact Ha].
  intros i Hi. apply Hm. lia.
Qed.

Lemma on_time_sub arr arr' w upto :
  (forall n, In n arr' -> In n arr) -> on_time arr w upto -> on_time arr' w upto.
Proof.
  unfold on_time. intros Hsub H j Hj. destruct (H j Hj) as [Hm Ha].
  split; [exact Hm|]. apply Forall_forall. intros n Hn%list_elem_of_In.
  rewrite Forall_forall in Ha. now apply Ha, list_elem_of_In, Hsub.
Qed.

Lemma on_time_nil w upto arr : on_time arr w upto -> on_time [] w upto.
Proof. apply on_time_sub. intros n []. Qed.

(** The demonstration notes are stamped with the reading that the reseed
    takes; they are on time with the readings after it. *)
Lemma reseeded_on_time w upto : on_time [] w upto -> on_time (demo w) (reseeded w) upto.
Proof.
  unfold on_time. intros H j Hj.
  cbn [reseeded with_storage rolled ticked ticks clock] in *.
  destruct (H j ltac:(lia)) as [Hm _]. split.
  - intros i Hi. apply Hm. lia.
  - unfold demo, welcome, tips. repeat constructor; cbn [Note.createdAt]; apply Hm; lia.
Qed.

(** What a read keeps of the order of the timestamps. *)
Lemma loaded_on_time w upto :
  in_order (collection w) -> on_time (collection w) w upto ->
  in_order (fst (loaded w)) /\ on_time (fst (loaded w)) (snd (loaded w)) upto.
Proof.
  intros Ho Ht.
  assert (Hd : in_order (demo w)).
  { unfold in_order, demo, welcome, tips.
    repeat constructor; cbn [Note.createdAt Note.updatedAt]; lia. }
  pose proof (reseeded_on_time w upto (on_time_nil _ _ _ Ht)) as Hr.
  unfold loaded, collection in *.
  destruct (storage w); cbn [fst snd]; auto.
Qed.

Lemma in_order_filter f arr : in_order arr -> in_order (List.filter f arr).
Proof.
  unfold in_order. intros H. apply Forall_forall.
  intros n [Hn _]%list_elem_of_In%filter_In.
  rewrite Forall_forall in H. now apply H, list_elem_of_In.
Qed.

(** One operation keeps the order of the timestamps, as long as the
    readings of the clock that it takes are on time. *)
Lemma step_on_time op w upto :
  in_order (collection w) -> on_time (collection w) w upto ->
  (ticks (step w op) <= upto)%nat ->
  in_order (collection (step w op))
  /\ on_time (collection (step w op)) (step w op) upto.
Proof.
  intros Ho Ht Hup.
  destruct (loaded_on_time w upto Ho Ht) as [Ho1 Ht1].
  destruct op as [q|i|input|i input|i]; cbn [step] in *.
  - (* list *)
    rewrite list_run. cbn [snd]. now rewrite loaded_collection.
  - (* get *)
    rewrite get_run. cbn [snd]. now rewrite loaded_collection.
  - (* create *)
    rewrite create_run in *. cbv zeta in *. cbn [snd] in *.
    set (w2 := rolled 31 (ticked 1 w)) in *.
    assert (Ht2 : on_time (collection w2) w2 upto)
      by (apply (on_time_later _ w); [reflexivity | cbn; lia | exact Ht]).
    destruct (loaded_on_time w2 upto Ho Ht2) as [Ho3 Ht3].
    unfold collection at 1 2. cbn [with_storage storage].
    split; [constructor; [cbn [Note.createdAt Note.updatedAt]; lia | exact Ho3]|].
    unfold on_time in *. intros j Hj.
    cbn [with_storage ticks clock] in Hj |- *.
    destruct (Ht3 j Hj) as [Hm Ha]. split; [exact Hm|].
    constructor; [|exact Ha]. cbn [Note.createdAt].
    rewrite loaded_clock. change (clock w2) with (clock w).
    pose proof (loaded_ticks w2) as Hlt. change (ticks w2) with (1 + ticks w)%nat in Hlt.
    destruct (Ht j ltac:(lia)) as [Hm0 _]. apply Hm0. lia.
  - (* update *)
    rewrite update_run in *. cbv zeta in *.
    destruct (list_find _ _) as [[idx old]|] eqn:Hfind; cbn [snd] in *.
    + apply list_find_Some in Hfind as (Hlook & _ & _).
      set (w1 := snd (loaded w)) in *.
      cbn [with_storage ticked ticks] in Hup.
      assert (Hold : forall j, (ticks w1 <= j < upto)%nat ->
                               Note.createdAt old <= clock w1 j).
      { intros j Hj. destruct (Ht1 j Hj) as [_ Ha].
        rewrite Forall_forall in Ha. apply Ha, list_elem_of_lookup. eauto. }
      unfold collection at 1 2. cbn [with_storage storage].
      split.
      * apply Forall_insert; [exact Ho1|].
        cbn [LocalMock.merge Note.createdAt Note.updatedAt]. apply Hold. lia.
      * intros j Hj. cbn [with_storage ticked ticks clock] in Hj |- *.
        destruct (Ht1 j ltac:(lia)) as [Hm Ha]. split.
        -- intros k Hk. apply Hm. lia.
        -- apply Forall_insert; [exact Ha|].
           cbn [LocalMock.merge Note.createdAt]. apply Hold. lia.
    + now rewrite loaded_collection.
  - (* remove *)
    rewrite remove_run. cbn [snd].
    unfold collection at 1 2. cbn [with_storage storage].
    split; [now apply in_order_filter|].
    apply (on_time_later _ (snd (loaded w))); [reflexivity | cbn; lia |].
    apply (on_time_sub (fst (loaded w))); [|exact Ht1].
    intros n Hn. now apply filter_In in Hn.
Qed.

Lemma step_ticks op w : (ticks w <= ticks (step w op))%nat.
Proof.
  pose proof (loaded_ticks w) as Hl.
  destruct op as [q|i|input|i input|i]; cbn [step].
  - now rewrite list_run.
  - now rewrite get_run.
  - rewrite create_run. cbv zeta. cbn [snd with_storage ticks].
    pose proof (loaded_ticks (rolled 31 (ticked 1 w))) as Hl2.
    cbn [rolled ticked ticks] in Hl2. lia.
  - rewrite update_run. cbv zeta.
    destruct (list_find _ _) as [[idx old]|]; cbn [snd with_storage ticked ticks]; lia.
  - rewrite remove_run. cbn [snd with_storage ticks]. exact Hl.
Qed.

Lemma run_ticks ops : forall w, (ticks w <= ticks (run ops w))%nat.
Proof.
  induction ops as [|op rest IH]; intros w; [reflexivity|].
  change (run (op :: rest) w) with (run rest (step w op)).
  pose proof (step_ticks op w). pose proof (IH (step w op)). lia.
Qed.

Lemma run_on_time ops :
  forall w upto,
    in_order (collection w) -> on_time (collection w) w upto ->
    (ticks (run ops w) <= upto)%nat ->
    in_order (collection (run ops w)).
Proof.
  induction ops as [|op rest IH]; intros w upto Ho Ht Hup; [exact Ho|].
  change (run (op :: rest) w) with (run rest (step w op)) in *.
  pose proof (run_ticks rest (step w op)) as Hr.
  destruct (step_on_time op w upto Ho Ht ltac:(lia)) as [Ho' Ht'].
  now apply (IH (step w op) upto).
Qed.

(** C9, as amended.  After every sequence of operations of the local
    store, started in any state of the browser:
    - the ids of the persisted collection are unique, provided the stored
      ids and the ids that [uid] draws during the run are all different
      ([drawn] counts the ids drawn: one for every [create] and two for a
      reseed, 31 values of the random source each);
    - every note of the persisted collection has [updatedAt >= createdAt],
      provided that was so at the start and every reading of the clock
      taken during the run is not before an earlier one of them nor before
      the creation of a note stored at the start. *)
Theorem invariants_each_under_its_proviso (ops : list Op) (w : World) :
  (fresh_ids w (drawn ops w) -> NoDup (ids (collection (run ops w)))) /\
  (in_order (collection w) -> on_time (collection w) w (ticks (run ops w)) ->
   in_order (collection (run ops w))) /\
  rolls (run ops w) = (31 * drawn ops w + rolls w)%nat.
Proof.
  split; [|split].
  - intros Hf.
    assert (H : fresh_ids (run ops w) 0)
      by (apply run_fresh; now replace (drawn ops w + 0)%nat with (drawn ops w) by lia).
    unfold fresh_ids in H. now apply nodup_app_l in H.
  - intros Ho Ht. now apply (run_on_time ops w (ticks (run ops w))).
  - apply run_rolls.
Qed.

Lemma invariants_each_under_its_proviso_witness :
  let ops := [ OCreate (CreateNoteInput.mk "T" "C" ["g"]);
               OUpdate "00000000-0000-4000-8000-000000000000"
                 (UpdateNoteInput.mk None (Some "x") None);
               ORemove "nobody" ] in
  NoDup (ids (collection (run ops fresh_browser))) /\
  in_order (collection (run ops fresh_browser)).
Proof.
  intros ops.
  destruct (invariants_each_under_its_proviso ops fresh_browser) as (Hids & Hts & _).
  split.
  - apply Hids. apply (bool_decide_unpack _). vm_compute. exact I.
  - apply Hts; [constructor|].
    intros j Hj. split; [|constructor].
    intros i Hi. cbn [fresh_browser clock]. lia.
Defined.

(** ** The reactive store *)

Lemma page_eta p :
  NotesStore.mkPage (NotesStore.world p) (NotesStore.store p) (NotesStore.heard p) = p.
Proof. now destruct p. Qed.

Lemma store_eta s :
  NotesStore.mk (NotesStore.api s) (NotesStore._notes s) (NotesStore._query s)
    (NotesStore.listeners s) = s.
Proof. now destruct s. Qed.

Lemma subscribe_run f p :
  NotesStore.subscribe f p =
  (Ok (NotesStore.unsubscribe f),
   with_store (with_listeners (NotesStore.listeners (NotesStore.store p) ++ [f])
                 (NotesStore.store p)) p).
Proof. reflexivity. Qed.

Lemma unsubscribe_run f p :
  NotesStore.unsubscribe f p =
  (Ok tt,
   with_store (with_listeners
                 (List.filter (fun l => negb (bool_decide (l = f)))
                    (NotesStore.listeners (NotesStore.store p)))
                 (NotesStore.store p)) p).
Proof. reflexivity. Qed.

Lemma for_of_run ls p :
  NotesStore.for_of ls p =
  (Ok tt,
   NotesStore.mkPage (NotesStore.world p) (NotesStore.store p)
     (NotesStore.heard p ++ told ls (NotesStore._notes (NotesStore.store p)))).
Proof.
  revert p. induction ls as [|l rest IH]; intros p; cbn [NotesStore.for_of told map].
  - unfold ret. now rewrite app_nil_r, page_eta.
  - unfold bind, NotesStore.call. rewrite IH.
    cbn [NotesStore.world NotesStore.store NotesStore.heard].
    now rewrite <- app_assoc.
Qed.

Lemma refresh_run p :
  let s := NotesStore.store p in
  NotesStore.refresh p =
  match NotesAPI.list (NotesStore.api s) (Some (NotesStore._query s)) (NotesStore.world p) with
  | (Ok l, w') =>
      (Ok tt,
       NotesStore.mkPage w' (with_notes l s)
         (NotesStore.heard p ++ told (NotesStore.listeners s) l))
  | (Throw e, w') => (Throw e, with_world w' p)
  end.
Proof.
  intros s. unfold NotesStore.refresh, NotesStore.emit, NotesStore.this,
    NotesStore.await, NotesStore.set_notes, bind.
  cbn [NotesStore.world NotesStore.store NotesStore.heard]. fold s.
  destruct (NotesAPI.list _ _ _) as [[l|e] w']; [|reflexivity].
  cbn [NotesStore.world NotesStore.store NotesStore.heard NotesStore.listeners].
  rewrite for_of_run. reflexivity.
Qed.

(** The two halves of [refresh], run one after the other, are
    [refresh]. *)
Lemma refresh_split p :
  NotesStore.refresh p = bind NotesStore.refresh_called NotesStore.refresh_resumed p.
Proof.
  unfold NotesStore.refresh, NotesStore.refresh_called, NotesStore.refresh_resumed,
    NotesStore.this, NotesStore.await, bind.
  cbn [NotesStore.world NotesStore.store NotesStore.heard].
  now destruct (NotesAPI.list _ _ _) as [[l|e] w'].
Qed.

Lemma mutate_then_refresh {A} (op : M World A) p :
  bind (NotesStore.await op) (fun _ => NotesStore.refresh) p =
  match op (NotesStore.world p) with
  | (Ok _, w1) => NotesStore.refresh (with_world w1 p)
  | (Throw e, w1) => (Throw e, with_world w1 p)
  end.
Proof.
  unfold bind, NotesStore.await.
  now destruct (op (NotesStore.world p)) as [[a|e] w1].
Qed.

(** ** C8: refresh, and mutations through the store *)

(** C8.  [refresh] asks the backend for [list] of the current query.  When
    that returns [l], the cache becomes [l] and then every registered
    listener is called exactly once, in the order of registration, each
    call seeing the new cache; [subscribe] registers at the end of that
    order.  [create], [update] and [remove] run the operation of the
    backend and, when it returns, [refresh]; the cache is only ever set by
    [refresh], and when the backend throws, the cache and the listeners
    are left alone and the error goes to the caller. *)
Theorem refresh_replaces_cache_and_notifies (p : NotesStore.Page) :
  let s := NotesStore.store p in
  let w := NotesStore.world p in
  NotesStore.refresh p =
    match NotesAPI.list (NotesStore.api s) (Some (NotesStore._query s)) w with
    | (Ok l, w') =>
        (Ok tt,
         NotesStore.mkPage w' (with_notes l s)
           (NotesStore.heard p ++ told (NotesStore.listeners s) l))
    | (Throw e, w') => (Throw e, with_world w' p)
    end
  /\ (forall f,
        NotesStore.listeners (NotesStore.store (snd (NotesStore.subscribe f p)))
        = NotesStore.listeners s ++ [f])
  /\ (forall input,
        NotesStore.create input p =
        match NotesAPI.create (NotesStore.api s) input w with
        | (Ok _, w1) => NotesStore.refresh (with_world w1 p)
        | (Throw e, w1) => (Throw e, with_world w1 p)
        end)
  /\ (forall i input,
        NotesStore.update i input p =
        match NotesAPI.update (NotesStore.api s) i input w with
        | (Ok _, w1) => NotesStore.refresh (with_world w1 p)
        | (Throw e, w1) => (Throw e, with_world w1 p)
        end)
  /\ (forall i,
        NotesStore.remove i p =
        match NotesAPI.remove (NotesStore.api s) i w with
        | (Ok _, w1) => NotesStore.refresh (with_world w1 p)
        | (Throw e, w1) => (Throw e, with_world w1 p)
        end).
Proof.
  intros s w. split; [apply refresh_run|]. split; [reflexivity|].
  split; [|split].
  - intros input. apply (mutate_then_refresh (NotesAPI.create (NotesStore.api s) input)).
  - intros i input. apply (mutate_then_refresh (NotesAPI.update (NotesStore.api s) i input)).
  - intros i. apply (mutate_then_refresh (NotesAPI.remove (NotesStore.api s) i)).
Qed.

(** A mutation through the store on the local backend: the cache is what
    [list] returns after the write, and the listener sees that cache. *)
Example store_create_on_local_backend :
  let p0 := NotesStore.mkPage stuck_browser (NotesStore.new offline EmptyString) [] in
  let p1 := snd (NotesStore.subscribe 1%nat p0) in
  let p2 := snd (NotesStore.create (CreateNoteInput.mk "T" "C" []) p1) in
  let n := Note.mk "00000000-0000-4000-8000-000000000000" "T" "C" [] 1000 1000 in
  NotesStore._notes (NotesStore.store p2) = [n] /\
  NotesStore.heard p2 = [Called 1%nat [n]] /\
  collection (NotesStore.world p2) = [n].
Proof. vm_compute. repeat split. Qed.

(** ** C10: one listener registered several times *)

Lemma subscribed_run n f p :
  subscribed n f p =
  with_store (with_listeners (NotesStore.listeners (NotesStore.store p) ++ repeat f n)
                (NotesStore.store p)) p.
Proof.
  induction n as [|n IH].
  - unfold subscribed, with_store, with_listeners. cbn [Nat.iter nat_rect repeat].
    now rewrite app_nil_r, store_eta, page_eta.
  - change (subscribed (S n) f p)
      with (snd (NotesStore.subscribe f (subscribed n f p))).
    rewrite IH, subscribe_run. cbn [repeat].
    unfold with_store, with_listeners.
    cbn [snd NotesStore.world NotesStore.store NotesStore.heard NotesStore.api
           NotesStore._notes NotesStore._query NotesStore.listeners].
    rewrite <- app_assoc. now rewrite <- repeat_cons.
Qed.

Lemma registrations_app f l1 l2 :
  registrations f (l1 ++ l2) = (registrations f l1 + registrations f l2)%nat.
Proof. unfold registrations. now rewrite List.filter_app, length_app. Qed.

Lemma registrations_repeat f n : registrations f (repeat f n) = n.
Proof.
  unfold registrations. induction n as [|n IH]; cbn [repeat List.filter]; [reflexivity|].
  rewrite bool_decide_eq_true_2 by reflexivity. cbn [length]. now rewrite IH.
Qed.

Lemma calls_of_app f e1 e2 :
  calls_of f (e1 ++ e2) = (calls_of f e1 + calls_of f e2)%nat.
Proof. unfold calls_of. now rewrite List.filter_app, length_app. Qed.

Lemma calls_of_told f ls l : calls_of f (told ls l) = registrations f ls.
Proof.
  unfold calls_of, registrations, told.
  induction ls as [|g ls IH]; cbn [map List.filter]; [reflexivity|].
  destruct (bool_decide (g = f)); cbn [length]; now rewrite IH.
Qed.

Lemma filter_others_app f (ls : list Listener) n :
  List.filter (fun l => negb (bool_decide (l = f))) (ls ++ repeat f n)
  = List.filter (fun l => negb (bool_decide (l = f))) ls.
Proof.
  rewrite List.filter_app.
  assert (E : List.filter (fun l => negb (bool_decide (l = f))) (repeat f n) = []).
  { induction n as [|n IH]; cbn [repeat List.filter]; [reflexivity|].
    now rewrite bool_decide_eq_true_2 by reflexivity. }
  now rewrite E, app_nil_r.
Qed.

Lemma registrations_others f (ls : list Listener) :
  registrations f (List.filter (fun l => negb (bool_decide (l = f))) ls) = 0%nat.
Proof.
  unfold registrations. induction ls as [|g ls IH]; cbn [List.filter]; [reflexivity|].
  destruct (bool_decide (g = f)) eqn:E; cbn [negb]; [exact IH|].
  cbn [List.filter]. now rewrite E.
Qed.

Lemma filter_others_twice f (ls : list Listener) :
  List.filter (fun l => negb (bool_decide (l = f)))
    (List.filter (fun l => negb (bool_decide (l = f))) ls)
  = List.filter (fun l => negb (bool_decide (l = f))) ls.
Proof.
  induction ls as [|g ls IH]; cbn [List.filter]; [reflexivity|].
  destruct (bool_decide (g = f)) eqn:E; cbn [negb]; [exact IH|].
  cbn [List.filter]. now rewrite E, IH.
Qed.

(** C10.  After [n] calls of [subscribe f], the listener [f] is registered
    [n] more times than before, and a [refresh] whose [list] returns calls
    it once per registration ([n] times when it was not registered
    before); a [refresh] whose [list] throws calls nobody.  Every call of
    [subscribe f] returns the same function: it drops all registrations of
    [f] at once and keeps the other listeners in their order, and running
    it again leaves the page as it is. *)
Theorem same_listener_subscribed_n_times
    (p : NotesStore.Page) (f : Listener) (n : nat) :
  let before := NotesStore.listeners (NotesStore.store p) in
  let pn := subscribed n f p in
  let gone := snd (NotesStore.unsubscribe f pn) in
  registrations f (NotesStore.listeners (NotesStore.store pn))
    = (registrations f before + n)%nat
  /\ match NotesAPI.list (NotesStore.api (NotesStore.store pn))
             (Some (NotesStore._query (NotesStore.store pn))) (NotesStore.world pn) with
     | (Ok _, _) =>
         calls_of f (NotesStore.heard (snd (NotesStore.refresh pn)))
         = (calls_of f (NotesStore.heard pn) + (registrations f before + n))%nat
     | (Throw _, _) =>
         NotesStore.heard (snd (NotesStore.refresh pn)) = NotesStore.heard pn
     end
  /\ (forall q, fst (NotesStore.subscribe f q) = Ok (NotesStore.unsubscribe f))
  /\ NotesStore.listeners (NotesStore.store gone)
       = List.filter (fun l => negb (bool_decide (l = f))) before
  /\ registrations f (NotesStore.listeners (NotesStore.store gone)) = 0%nat
  /\ NotesStore.unsubscribe f gone = (Ok tt, gone).
Proof.
  intros before pn gone.
  assert (Hls : NotesStore.listeners (NotesStore.store pn) = before ++ repeat f n).
  { unfold pn. now rewrite subscribed_run. }
  assert (Hgone : NotesStore.listeners (NotesStore.store gone)
                  = List.filter (fun l => negb (bool_decide (l = f))) before).
  { unfold gone. rewrite unsubscribe_run.
    cbn [snd with_store with_listeners NotesStore.store NotesStore.listeners].
    now rewrite Hls, filter_others_app. }
  split; [|split; [|split; [|split; [|split]]]].
  - now rewrite Hls, registrations_app, registrations_repeat.
  - rewrite refresh_run. cbv zeta.
    destruct (NotesAPI.list _ _ _) as [[l|e] w']; [|reflexivity].
    cbn [snd NotesStore.heard].
    now rewrite calls_of_app, calls_of_told, Hls, registrations_app, registrations_repeat.
  - reflexivity.
  - exact Hgone.
  - rewrite Hgone. apply registrations_others.
  - rewrite unsubscribe_run. f_equal.
    unfold with_store, with_listeners. rewrite Hgone, filter_others_twice.
    rewrite <- Hgone. unfold gone. rewrite unsubscribe_run.
    reflexivity.
Qed.

(** The listener scenario of the specification, on the local store: two
    listeners are registered, the first one twice; a [refresh] calls them
    in the order of registration, and after the first one is unsubscribed
    only the second one is called. *)
Example two_listeners_refresh :
  let p0 := NotesStore.mkPage stuck_browser (NotesStore.new offline EmptyString) [] in
  let p1 := snd (NotesStore.subscribe 1%nat p0) in
  let p2 := snd (NotesStore.subscribe 2%nat p1) in
  let p3 := snd (NotesStore.subscribe 1%nat p2) in
  NotesStore.heard (snd (NotesStore.refresh p3))
    = [Called 1%nat []; Called 2%nat []; Called 1%nat []] /\
  NotesStore.heard (snd (NotesStore.refresh (snd (NotesStore.unsubscribe 1%nat p3))))
    = [Called 2%nat []].
Proof. split; reflexivity. Qed.

(* ===================================================================== *)
(** * Further properties of the code *)
(* ===================================================================== *)

(** ** types.ts: the ids that [uid] makes *)

Lemma hex_is_hex z : is_hex (hex (z mod 16)) = true.
Proof.
  pose proof (Z.mod_pos_bound z 16 ltac:(lia)) as Hr.
  revert Hr. generalize (z mod 16). intros r Hr.
  assert (Hc : r = 0 \/ r = 1 \/ r = 2 \/ r = 3 \/ r = 4 \/ r = 5 \/ r = 6 \/ r = 7 \/
               r = 8 \/ r = 9 \/ r = 10 \/ r = 11 \/ r = 12 \/ r = 13 \/ r = 14 \/ r = 15)
    by lia.
  repeat (destruct Hc as [->|Hc]; [reflexivity|]). now subst.
Qed.

Lemma hex_is_variant z : is_variant (hex (Z.lor (Z.land (z mod 16) 3) 8)) = true.
Proof.
  pose proof (Z.mod_pos_bound z 16 ltac:(lia)) as Hr.
  revert Hr. generalize (z mod 16). intros r Hr.
  assert (Hc : r = 0 \/ r = 1 \/ r = 2 \/ r = 3 \/ r = 4 \/ r = 5 \/ r = 6 \/ r = 7 \/
               r = 8 \/ r = 9 \/ r = 10 \/ r = 11 \/ r = 12 \/ r = 13 \/ r = 14 \/ r = 15)
    by lia.
  repeat (destruct Hc as [->|Hc]; [reflexivity|]). now subst.
Qed.

Lemma fill_xy_shaped tpl :
  forall d k, shaped tpl (fill_xy d k tpl) = true.
Proof.
  induction tpl as [|t tpl IH]; intros d k; cbn [fill_xy shaped]; [reflexivity|].
  destruct (decide (t = "x"%char \/ t = "y"%char)) as [Hxy|Hxy]; cbn [shaped].
  - destruct (decide (t = "x"%char)) as [Hx|Hx].
    + now rewrite hex_is_hex, IH.
    + destruct (decide (t = "y"%char)) as [Hy|Hy]; [|tauto].
      now rewrite hex_is_variant, IH.
  - destruct (decide (t = "x"%char)) as [Hx|Hx]; [tauto|].
    destruct (decide (t = "y"%char)) as [Hy|Hy]; [tauto|].
    now rewrite bool_decide_eq_true_2, IH.
Qed.

Lemma shaped_length tpl :
  forall s, shaped tpl s = true -> String.length s = String.length tpl.
Proof.
  induction tpl as [|t tpl IH]; intros [|c s]; cbn [shaped String.length];
    try discriminate; [reflexivity|].
  intros [_ H]%andb_true_iff. now rewrite (IH s H).
Qed.

Transparent uid_at.

(** X1.  Whatever the random source gives, [uid] returns an id of the
    version-4 layout: 36 characters, hyphens after the 8th, 13th, 18th
    and 23rd, the digit 4 in front of the third group, one of 8, 9, a, b
    in front of the fourth, lower-case hexadecimal digits elsewhere.  It
    takes exactly 31 values from the random source and touches nothing
    else. *)
Theorem uid_has_uuid_layout (w : World) :
  exists s,
    uid w = (Ok s, rolled 31 w) /\
    shaped "xxxxxxxx-xxxx-4xxx-yxxx-xxxxxxxxxxxx" s = true /\
    String.length s = 36%nat.
Proof.
  exists (uid_at (dice w) (rolls w)). split; [apply uid_run|].
  assert (H : shaped "xxxxxxxx-xxxx-4xxx-yxxx-xxxxxxxxxxxx" (uid_at (dice w) (rolls w)) = true)
    by (unfold uid_at; apply fill_xy_shaped).
  split; [exact H|]. now rewrite (shaped_length _ _ H).
Qed.

Opaque uid_at.

(** ** services/api.ts: the local store *)

Lemma filter_idem {A} (f : A -> bool) l :
  List.filter f (List.filter f l) = List.filter f l.
Proof.
  induction l as [|x r IH]; cbn [List.filter]; [reflexivity|].
  destruct (f x) eqn:E; [|exact IH]. cbn [List.filter]. now rewrite E, IH.
Qed.

Lemma find_none_iff i (arr : Notes) :
  List.find (fun n => bool_decide (Note.id n = i)) arr = None <->
  (forall n, In n arr -> Note.id n <> i).
Proof.
  split.
  - intros H n Hn Hid. apply (find_none _ _ H) in Hn.
    now rewrite bool_decide_eq_true_2 in Hn.
  - intros H. induction arr as [|x r IH]; cbn [List.find]; [reflexivity|].
    rewrite bool_decide_eq_false_2 by (apply H; now left).
    apply IH. intros n Hn. apply H. now right.
Qed.

Lemma find_first_bool i (pre post : Notes) n :
  Note.id n = i ->
  (forall m, In m pre -> Note.id m <> i) ->
  List.find (fun n => bool_decide (Note.id n = i)) (pre ++ n :: post) = Some n.
Proof.
  intros Hn Hpre. induction pre as [|x pre IH]; cbn [app List.find].
  - now rewrite bool_decide_eq_true_2.
  - rewrite bool_decide_eq_false_2 by (apply Hpre; now left).
    apply IH. intros m Hm. apply Hpre. now right.
Qed.

Lemma filter_all {A} (f : A -> bool) l :
  (forall x, In x l -> f x = true) -> List.filter f l = l.
Proof.
  induction l as [|x r IH]; intros H; cbn [List.filter]; [reflexivity|].
  rewrite H by now left. f_equal. apply IH. intros y Hy. apply H. now right.
Qed.

Lemma filter_sublist {A} (f : A -> bool) l : sublist (List.filter f l) l.
Proof.
  induction l as [|x r IH]; cbn [List.filter]; [constructor|].
  destruct (f x); now constructor.
Qed.

(** X2.  In every state of the browser [remove id] returns normally;
    after it [get id] returns the absent result, and a second [remove id]
    returns normally as well and changes nothing. *)
Theorem remove_then_get_absent (i : NoteID) (w : World) :
  let w1 := snd (LocalMock.remove i w) in
  fst (LocalMock.remove i w) = Ok tt /\
  LocalMock.get i w1 = (Ok None, w1) /\
  LocalMock.remove i w1 = (Ok tt, w1).
Proof.
  intros w1. subst w1. rewrite remove_run. cbn [fst snd].
  set (kept := List.filter _ (fst (loaded w))).
  set (w1 := with_storage (NoteArray kept) (snd (loaded w))).
  assert (Hl : loaded w1 = (kept, w1)) by (now apply loaded_array).
  split; [reflexivity|]. split.
  - rewrite get_run, Hl. cbn [fst snd]. f_equal. f_equal.
    apply find_none_iff. intros n [_ Hn]%filter_In Hid.
    now rewrite bool_decide_eq_true_2 in Hn.
  - rewrite remove_run, Hl. cbn [fst snd]. unfold kept. now rewrite filter_idem.
Qed.

(** X3.  On a stored collection [remove id] deletes every note with that
    id and nothing else: the notes with another id stay, in their order,
    and when no note has the id the collection is left as it was.  The
    clock and the random source are not used. *)
Theorem remove_keeps_other_notes (w : World) (arr : Notes) (i : NoteID) :
  storage w = NoteArray arr ->
  exists arr',
    LocalMock.remove i w = (Ok tt, with_storage (NoteArray arr') w) /\
    (forall n, In n arr' <-> In n arr /\ Note.id n <> i) /\
    sublist arr' arr /\
    ((forall n, In n arr -> Note.id n <> i) -> arr' = arr).
Proof.
  intros Hst. eexists. rewrite remove_run, (loaded_array _ _ Hst). cbn [fst snd].
  split; [reflexivity|]. split; [|split].
  - intros n. rewrite filter_In, negb_true_iff, bool_decide_eq_false. tauto.
  - apply filter_sublist.
  - intros H. apply filter_all. intros n Hn.
    now rewrite negb_true_iff, bool_decide_eq_false_2 by auto.
Qed.

Lemma remove_keeps_other_notes_witness :
  let a := Note.mk "a" "T" "C" [] 5 5 in
  let b := Note.mk "b" "U" "D" [] 6 6 in
  let w := mkWorld (NoteArray [a; b; a]) (fun _ => 9) 0 (fun _ => 0) 0 0 in
  exists arr',
    LocalMock.remove "a" w = (Ok tt, with_storage (NoteArray arr') w) /\
    (forall n, In n arr' <-> In n [a; b; a] /\ Note.id n <> "a") /\
    sublist arr' [a; b; a] /\
    ((forall n, In n [a; b; a] -> Note.id n <> "a") -> arr' = [a; b; a]).
Proof.
  intros a b w. apply (remove_keeps_other_notes w [a; b; a] "a"). reflexivity.
Defined.

(** X4.  On a stored collection, [create] followed by [remove] of the new
    id gives back the collection as it was, provided the new id is not
    the id of a stored note. *)
Theorem create_then_remove_restores
    (w : World) (arr : Notes) (input : CreateNoteInput.t) :
  storage w = NoteArray arr ->
  ~ In (uid_at (dice w) (rolls w)) (ids arr) ->
  exists n w1,
    LocalMock.create input w = (Ok n, w1) /\
    storage w1 = NoteArray (n :: arr) /\
    LocalMock.remove (Note.id n) w1 = (Ok tt, with_storage (NoteArray arr) w1).
Proof.
  intros Hst Hfresh. do 2 eexists. split; [apply create_run|].
  assert (Hl : loaded (rolled 31 (ticked 1 w)) = (arr, rolled 31 (ticked 1 w)))
    by (now apply loaded_array).
  rewrite Hl. cbn [fst snd]. split; [reflexivity|].
  rewrite remove_run. erewrite loaded_array by reflexivity.
  cbn [fst snd List.filter Note.id].
  rewrite bool_decide_eq_true_2 by reflexivity. cbn [negb].
  rewrite filter_all; [reflexivity|].
  intros m Hm. rewrite negb_true_iff, bool_decide_eq_false.
  intros Hid. apply Hfresh. unfold ids. apply in_map_iff. eauto.
Qed.

Lemma create_then_remove_restores_witness :
  let a := Note.mk "a" "T" "C" [] 5 5 in
  let w := mkWorld (NoteArray [a]) (fun _ => 9) 0 (fun _ => 0) 0 0 in
  exists n w1,
    LocalMock.create (CreateNoteInput.mk "N" "B" []) w = (Ok n, w1) /\
    storage w1 = NoteArray [n; a] /\
    LocalMock.remove (Note.id n) w1 = (Ok tt, with_storage (NoteArray [a]) w1).
Proof.
  intros a w.
  apply (create_then_remove_restores w [a] (CreateNoteInput.mk "N" "B" [])).
  - reflexivity.
  - vm_compute. intros [H|[]]. discriminate.
Defined.

(** X5.  After an [update] of a stored id, [get] on that id returns the
    note that [update] returned. *)
Theorem update_then_get
    (w : World) (arr : Notes) (i : NoteID) (input : UpdateNoteInput.t) :
  storage w = NoteArray arr ->
  (exists n, In n arr /\ Note.id n = i) ->
  exists u w1,
    LocalMock.update i input w = (Ok u, w1) /\
    LocalMock.get i w1 = (Ok (Some u), w1).
Proof.
  intros Hst Hex.
  destruct (first_with_id arr i Hex) as (pre & old & post & -> & Hold & Hpre).
  set (u := LocalMock.merge old input (clock w (ticks w))).
  exists u, (with_storage (NoteArray (pre ++ u :: post)) (ticked 1 w)). split.
  - rewrite update_run, (loaded_array _ _ Hst). cbn [fst snd].
    rewrite (find_first_middle i) by auto. cbv zeta.
    replace (length pre) with (length pre + 0)%nat by lia.
    rewrite insert_app_r. reflexivity.
  - rewrite get_run. erewrite loaded_array by reflexivity. cbn [fst snd].
    rewrite (find_first_bool i); [reflexivity | exact Hold | exact Hpre].
Qed.

Lemma update_then_get_witness :
  let a := Note.mk "a" "T" "C" [] 5 5 in
  let w := mkWorld (NoteArray [a]) (fun _ => 9) 0 (fun _ => 0) 0 0 in
  exists u w1,
    LocalMock.update "a" (UpdateNoteInput.mk (Some "U") None None) w = (Ok u, w1) /\
    LocalMock.get "a" w1 = (Ok (Some u), w1).
Proof.
  intros a w.
  apply (update_then_get w [a] "a" (UpdateNoteInput.mk (Some "U") None None)).
  - reflexivity.
  - exists a. split; [now left | reflexivity].
Defined.

(** X6.  On a stored collection [get] never throws and changes nothing:
    it returns the absent result exactly when no stored note has the id,
    and otherwise the first stored note with that id. *)
Theorem get_finds_first_or_absent (w : World) (arr : Notes) (i : NoteID) :
  storage w = NoteArray arr ->
  exists o,
    LocalMock.get i w = (Ok o, w) /\
    (o = None <-> forall n, In n arr -> Note.id n <> i) /\
    (forall n, o = Some n ->
       exists pre post, arr = pre ++ n :: post /\ Note.id n = i /\
                        forall m, In m pre -> Note.id m <> i).
Proof.
  intros Hst. eexists. rewrite get_run, (loaded_array _ _ Hst). cbn [fst snd].
  split; [reflexivity|]. split; [apply find_none_iff|].
  intros n Hn.
  destruct (find_some _ _ Hn) as [Hin Hid]. apply bool_decide_eq_true in Hid.
  destruct (first_with_id arr i) as (pre & old & post & E & Hold & Hpre); [eauto|].
  exists pre, post. subst arr.
  rewrite (find_first_bool i pre post old Hold Hpre) in Hn.
  injection Hn as <-. auto.
Qed.

Lemma get_finds_first_or_absent_witness :
  let a := Note.mk "a" "T" "C" [] 5 5 in
  let w := mkWorld (NoteArray [a]) (fun _ => 9) 0 (fun _ => 0) 0 0 in
  exists o,
    LocalMock.get "zz" w = (Ok o, w) /\
    (o = None <-> forall n, In n [a] -> Note.id n <> "zz") /\
    (forall n, o = Some n ->
       exists pre post, [a] = pre ++ n :: post /\ Note.id n = "zz" /\
                        forall m, In m pre -> Note.id m <> "zz").
Proof.
  intros a w. apply (get_finds_first_or_absent w [a] "zz"). reflexivity.
Defined.

(** *** Search *)

(** X7.  Only the lower-cased text of the query matters to [list]: two
    queries with the same lower-cased text get the same answer, and an
    omitted query is the empty one. *)
Theorem list_depends_on_lowered_query (q q' : option string) (w : World) :
  toLowerCase (default EmptyString q) = toLowerCase (default EmptyString q') ->
  LocalMock.list q w = LocalMock.list q' w.
Proof.
  intros E. rewrite !list_run.
  assert (Ht : truthy_opt q = truthy_opt q').
  { assert (H : forall o, truthy_opt o = truthy (toLowerCase (default EmptyString o)))
      by (intros [s|]; cbn [truthy_opt default]; [now rewrite toLowerCase_truthy | reflexivity]).
    now rewrite !H, E. }
  cbv zeta. now rewrite Ht, E.
Qed.

Lemma list_depends_on_lowered_query_witness :
  LocalMock.list (Some "Tips") fresh_browser = LocalMock.list (Some "tIPS") fresh_browser.
Proof.
  apply (list_depends_on_lowered_query (Some "Tips") (Some "tIPS") fresh_browser).
  reflexivity.
Defined.

Lemma sapp_assoc a b c : (a +:+ b) +:+ c = a +:+ b +:+ c.
Proof.
  induction a as [|x a IH]; [reflexivity|].
  change (String x ((a +:+ b) +:+ c) = String x (a +:+ b +:+ c)). now f_equal.
Qed.

Lemma includes_trans s q2 q1 :
  includes s q2 = true -> includes q2 q1 = true -> includes s q1 = true.
Proof.
  rewrite !includes_spec. intros (a & b & ->) (c & d & ->).
  exists (a +:+ c), (d +:+ b). now rewrite !sapp_assoc.
Qed.

Lemma hit_narrows q1 q2 n :
  includes q2 q1 = true -> LocalMock.hit q2 n = true -> LocalMock.hit q1 n = true.
Proof.
  intros Hq. unfold LocalMock.hit. rewrite !orb_true_iff, !existsb_exists.
  intros [[H|H]|(t & Ht & H)].
  - left; left. eapply includes_trans; eauto.
  - left; right. eapply includes_trans; eauto.
  - right. exists t. split; [exact Ht|]. eapply includes_trans; eauto.
Qed.

(** X8.  A longer query narrows the search: when the lower case of [q1]
    occurs in the lower case of [q2], every note that [list q2] returns is
    among the notes that [list q1] returns. *)
Theorem list_longer_query_narrows (q1 q2 : string) (w : World) :
  lowered_in q1 q2 ->
  forall n, In n (listed (Some q2) w) -> In n (listed (Some q1) w).
Proof.
  intros Hci n. unfold listed. rewrite !list_run. cbn [fst truthy_opt default]. cbv zeta.
  set (all := sort _ _).
  destruct (truthy q1) eqn:H1.
  - destruct (truthy q2) eqn:H2.
    + rewrite !filter_In. intros [Hin Hhit]. split; [exact Hin|].
      eapply hit_narrows; [|exact Hhit]. now apply includes_lowered.
    + apply truthy_false in H2. subst q2.
      destruct Hci as (pre & post & E). rewrite <- toLowerCase_truthy in H1.
      destruct pre; [|discriminate]. now destruct (toLowerCase q1).
  - destruct (truthy q2); [|auto]. now intros [Hin _]%filter_In.
Qed.

Lemma list_longer_query_narrows_witness :
  let n := tips "11111111-1111-4111-9111-111111111111" 1000 in
  In n (listed (Some "tip") fresh_browser).
Proof.
  intros n.
  apply (list_longer_query_narrows "tip" "Keyboard Tips" fresh_browser).
  - exists "keyboard ", "s". vm_compute. reflexivity.
  - vm_compute. now left.
Defined.

(** X9.  [list] reseeds at most once: after a first [list], whatever the
    slot held before, the slot holds a collection, the same call gives
    the same answer again, and no later [list] changes the state. *)
Theorem list_reseeds_once (q q' : option string) (w : World) :
  let w1 := snd (LocalMock.list q w) in
  ~ corrupt (storage w1) /\
  LocalMock.list q w1 = (fst (LocalMock.list q w), w1) /\
  exists l, LocalMock.list q' w1 = (Ok l, w1).
Proof.
  intros w1. subst w1. rewrite (list_run q w). cbn [fst snd].
  assert (Hl : loaded (snd (loaded w)) = (fst (loaded w), snd (loaded w)))
    by (apply loaded_array, storage_loaded).
  split; [rewrite storage_loaded; cbn [corrupt]; tauto|]. split.
  - now rewrite list_run, Hl.
  - eexists. rewrite list_run, Hl. reflexivity.
Qed.

(** X10.  [list] keeps the stored order among notes that were updated at
    the same time. *)
Theorem list_ties_keep_stored_order (w : World) (arr : Notes) (t : Timestamp) :
  storage w = NoteArray arr ->
  List.filter (updated_at t) (listed None w) = List.filter (updated_at t) arr.
Proof.
  intros Hst. unfold listed. rewrite list_run, (loaded_array _ _ Hst).
  cbn [fst truthy_opt]. cbv zeta. apply sort_stable.
  intros x y Hx%bool_decide_eq_true Hy%bool_decide_eq_true. lia.
Qed.

Lemma list_ties_keep_stored_order_witness :
  let a := Note.mk "a" "T" "C" [] 5 7 in
  let b := Note.mk "b" "U" "D" [] 6 9 in
  let c := Note.mk "c" "V" "E" [] 6 7 in
  let w := mkWorld (NoteArray [a; b; c]) (fun _ => 9) 0 (fun _ => 0) 0 0 in
  List.filter (updated_at 7) (listed None w) = List.filter (updated_at 7) [a; b; c].
Proof.
  intros a b c w. apply (list_ties_keep_stored_order w [a; b; c] 7). reflexivity.
Defined.

(** ** services/api.ts: the remote client *)

Lemma loaded_requests w : requests (snd (loaded w)) = requests w.
Proof. unfold loaded. now destruct (storage w). Qed.

Lemma safeFetch_sends (fetch : Network) base A input method body w :
  exists o, BackendClient.safeFetch fetch base A input method body w = (Ok o, sent w).
Proof.
  unfold BackendClient.safeFetch.
  destruct (fetch A _ _) as [res|]; [destruct (ok res)|]; eexists; reflexivity.
Qed.

Lemma res_json_keeps {A} (res : Response A) w :
  snd (BackendClient.res_json res w) = w.
Proof. unfold BackendClient.res_json. now destruct (json res). Qed.

(** X11.  The local store never calls [fetch]; every operation of the
    remote client calls it exactly once, whatever the network answers and
    whether or not the call then falls back to the local store. *)
Theorem one_request_per_remote_operation (fetch : Network) (base : string) (w : World) :
  let remote := createBackendClient fetch base createLocalMock in
  (forall q, requests (snd (LocalMock.list q w)) = requests w) /\
  (forall i, requests (snd (LocalMock.get i w)) = requests w) /\
  (forall input, requests (snd (LocalMock.create input w)) = requests w) /\
  (forall i input, requests (snd (LocalMock.update i input w)) = requests w) /\
  (forall i, requests (snd (LocalMock.remove i w)) = requests w) /\
  (forall q, requests (snd (NotesAPI.list remote q w)) = S (requests w)) /\
  (forall i, requests (snd (NotesAPI.get remote i w)) = S (requests w)) /\
  (forall input, requests (snd (NotesAPI.create remote input w)) = S (requests w)) /\
  (forall i input, requests (snd (NotesAPI.update remote i input w)) = S (requests w)) /\
  (forall i, requests (snd (NotesAPI.remove remote i w)) = S (requests w)).
Proof.
  intros remote.
  assert (Ll : forall q v, requests (snd (LocalMock.list q v)) = requests v)
    by (intros; rewrite list_run; apply loaded_requests).
  assert (Lg : forall i v, requests (snd (LocalMock.get i v)) = requests v)
    by (intros; rewrite get_run; apply loaded_requests).
  assert (Lc : forall input v, requests (snd (LocalMock.create input v)) = requests v).
  { intros. rewrite create_run. cbv zeta. cbn [snd with_storage requests].
    now rewrite loaded_requests. }
  assert (Lu : forall i input v, requests (snd (LocalMock.update i input v)) = requests v).
  { intros. rewrite update_run. cbv zeta.
    destruct (list_find _ _) as [[idx old]|]; cbn [snd with_storage ticked requests];
      apply loaded_requests. }
  assert (Lr : forall i v, requests (snd (LocalMock.remove i v)) = requests v).
  { intros. rewrite remove_run. cbn [snd with_storage requests]. apply loaded_requests. }
  repeat match goal with |- _ /\ _ => split end; auto; intros; subst remote;
    cbn [createBackendClient NotesAPI.list NotesAPI.get NotesAPI.create
           NotesAPI.update NotesAPI.remove createLocalMock].
  - unfold BackendClient.list.
    destruct (safeFetch_sends fetch base Notes
                (NotesRoute (if truthy_opt q then q else None)) GET NoPayload w) as [o E].
    rewrite (bind_ok _ _ _ _ _ E).
    destruct o as [res|]; [now rewrite res_json_keeps | now rewrite Ll].
  - unfold BackendClient.get.
    destruct (safeFetch_sends fetch base Note (NoteRoute i) GET NoPayload w) as [o E].
    rewrite (bind_ok _ _ _ _ _ E).
    destruct o as [res|]; [|now rewrite Lg].
    destruct (status res =? 404); [reflexivity|].
    unfold bind, BackendClient.res_json. now destruct (json res).
  - unfold BackendClient.create.
    destruct (safeFetch_sends fetch base Note (NotesRoute None) POST
                (CreatePayload input) w) as [o E].
    rewrite (bind_ok _ _ _ _ _ E).
    destruct o as [res|]; [now rewrite res_json_keeps | now rewrite Lc].
  - unfold BackendClient.update.
    destruct (safeFetch_sends fetch base Note (NoteRoute i) PATCH
                (UpdatePayload input) w) as [o E].
    rewrite (bind_ok _ _ _ _ _ E).
    destruct o as [res|]; [now rewrite res_json_keeps | now rewrite Lu].
  - unfold BackendClient.remove.
    destruct (safeFetch_sends fetch base unit (NoteRoute i) DELETE NoPayload w) as [o E].
    rewrite (bind_ok _ _ _ _ _ E).
    destruct o as [res|]; [reflexivity | now rewrite Lr].
Qed.

(** X12.  A success status whose body cannot be read is not a fault for
    the fallback: when the network answers every request that way,
    [list], [get], [create] and [update] throw to the caller and leave
    the local store alone.  [remove] does not read the body and
    returns. *)
Theorem success_is_never_handed_to_local_store
    (fetch : Network) (base : string) (w : World) :
  (forall A k req,
      exists res, fetch A k req = Some res /\ ok res = true /\ json res = None) ->
  let remote := createBackendClient fetch base createLocalMock in
  (forall q, NotesAPI.list remote q w = (Throw BadBody, sent w)) /\
  (forall i, NotesAPI.get remote i w = (Throw BadBody, sent w)) /\
  (forall input, NotesAPI.create remote input w = (Throw BadBody, sent w)) /\
  (forall i input, NotesAPI.update remote i input w = (Throw BadBody, sent w)) /\
  (forall i, NotesAPI.remove remote i w = (Ok tt, sent w)).
Proof.
  intros Hnet remote. subst remote.
  assert (Hs : forall A input method body,
             exists res, BackendClient.safeFetch fetch base A input method body w
                         = (Ok (Some res), sent w) /\ json res = None).
  { intros A input method body. unfold BackendClient.safeFetch.
    destruct (Hnet A (requests w) (mkRequest base input method body))
      as (res & -> & -> & Hj). now exists res. }
  cbn [createBackendClient NotesAPI.list NotesAPI.get NotesAPI.create
         NotesAPI.update NotesAPI.remove].
  split; [|split; [|split; [|split]]].
  - intros q. unfold BackendClient.list.
    destruct (Hs Notes (NotesRoute (if truthy_opt q then q else None)) GET NoPayload)
      as (res & E & Hj).
    rewrite (bind_ok _ _ _ _ _ E). unfold BackendClient.res_json. now rewrite Hj.
  - intros i. unfold BackendClient.get.
    destruct (Hs Note (NoteRoute i) GET NoPayload) as (res & E & Hj).
    rewrite (bind_ok _ _ _ _ _ E).
    destruct (safeFetch_success _ _ _ _ _ _ _ _ _ E) as [_ Hne].
    rewrite (proj2 (Z.eqb_neq _ _) Hne).
    unfold bind, BackendClient.res_json. now rewrite Hj.
  - intros input. unfold BackendClient.create.
    destruct (Hs Note (NotesRoute None) POST (CreatePayload input)) as (res & E & Hj).
    rewrite (bind_ok _ _ _ _ _ E). unfold BackendClient.res_json. now rewrite Hj.
  - intros i input. unfold BackendClient.update.
    destruct (Hs Note (NoteRoute i) PATCH (UpdatePayload input)) as (res & E & Hj).
    rewrite (bind_ok _ _ _ _ _ E). unfold BackendClient.res_json. now rewrite Hj.
  - intros i. unfold BackendClient.remove.
    destruct (Hs unit (NoteRoute i) DELETE NoPayload) as (res & E & Hj).
    now rewrite (bind_ok _ _ _ _ _ E).
Qed.

Lemma success_is_never_handed_to_local_store_witness :
  let a := Note.mk "a" "T" "C" [] 5 5 in
  let w := mkWorld (NoteArray [a]) (fun _ => 9) 0 (fun _ => 0) 0 0 in
  NotesAPI.remove
    (createBackendClient net200_unreadable "https://notes.example" createLocalMock) "a" w
  = (Ok tt, sent w).
Proof.
  intros a w.
  refine (proj2 (proj2 (proj2 (proj2
    (success_is_never_handed_to_local_store net200_unreadable "https://notes.example" w _))))
    "a").
  intros A k req. exists (mkResponse 200 None). repeat split.
Defined.

(** X13.  A [remove] that succeeds on the server does not touch the
    local collection.  So when the network fails afterwards, the [get]
    that falls back to the local store still returns a note with the
    removed id. *)
Theorem removed_on_server_still_served_by_fallback
    (fetch : Network) (base : string) (w : World) (arr : Notes) (i : NoteID)
    (res : Response unit) :
  storage w = NoteArray arr ->
  (exists n, In n arr /\ Note.id n = i) ->
  fetch unit (requests w) (mkRequest base (NoteRoute i) DELETE NoPayload) = Some res ->
  ok res = true ->
  fetch Note (S (requests w)) (mkRequest base (NoteRoute i) GET NoPayload) = None ->
  let remote := createBackendClient fetch base createLocalMock in
  NotesAPI.remove remote i w = (Ok tt, sent w) /\
  exists n, NotesAPI.get remote i (sent w) = (Ok (Some n), sent (sent w)) /\
            In n arr /\ Note.id n = i.
Proof.
  intros Hst Hex Hdel Hok Hget remote. subst remote.
  cbn [createBackendClient NotesAPI.remove NotesAPI.get]. split.
  - unfold BackendClient.remove, bind, BackendClient.safeFetch. now rewrite Hdel, Hok.
  - unfold BackendClient.get.
    rewrite (bind_ok _ _ (sent w) None (sent (sent w))).
    2:{ apply safeFetch_fails. cbn [sent requests]. now rewrite Hget. }
    cbn [createLocalMock NotesAPI.get]. rewrite get_run.
    rewrite (loaded_array (sent (sent w)) arr) by exact Hst. cbn [fst snd].
    destruct (first_with_id arr i Hex) as (pre & old & post & -> & Hold & Hpre).
    exists old. rewrite (find_first_bool i pre post old Hold Hpre).
    split; [reflexivity|]. split; [|exact Hold].
    apply in_app_iff. right. now left.
Qed.

Lemma removed_on_server_still_served_by_fallback_witness :
  let a := Note.mk "a" "T" "C" [] 5 5 in
  let w := mkWorld (NoteArray [a]) (fun _ => 9) 0 (fun _ => 0) 0 0 in
  let remote := createBackendClient net_then_down "https://notes.example" createLocalMock in
  NotesAPI.remove remote "a" w = (Ok tt, sent w) /\
  exists n, NotesAPI.get remote "a" (sent w) = (Ok (Some n), sent (sent w)) /\
            In n [a] /\ Note.id n = "a".
Proof.
  intros a w.
  apply (removed_on_server_still_served_by_fallback net_then_down
           "https://notes.example" w [a] "a" (mkResponse 204 None)).
  - reflexivity.
  - exists a. split; [now left | reflexivity].
  - reflexivity.
  - reflexivity.
  - reflexivity.
Defined.

(** ** state/store.ts: the store on the local backend *)

Lemma listed_run q w : LocalMock.list q w = (Ok (listed q w), snd (loaded w)).
Proof. unfold listed. now rewrite list_run. Qed.

Lemma listed_spec q w n :
  In n (listed q w) <-> In n (fst (loaded w)) /\ wanted q n.
Proof.
  unfold listed. rewrite list_run. cbn [fst]. cbv zeta.
  set (all := sort _ _).
  assert (Hall : In n all <-> In n (fst (loaded w))).
  { split; apply Permutation_in; [|symmetry]; apply sort_perm. }
  destruct q as [q|]; cbn [truthy_opt default wanted]; [|tauto].
  destruct (truthy q) eqn:Hq.
  - rewrite filter_In, hit_spec, Hall. split; [tauto|].
    intros [Hin [->|H]]; [discriminate | tauto].
  - apply truthy_false in Hq. tauto.
Qed.

Lemma refresh_local p :
  local_page p ->
  NotesStore.refresh p =
  (Ok tt,
   NotesStore.mkPage (snd (loaded (NotesStore.world p)))
     (with_notes (listed (Some (NotesStore._query (NotesStore.store p))) (NotesStore.world p))
        (NotesStore.store p))
     (NotesStore.heard p
        ++ told (NotesStore.listeners (NotesStore.store p))
             (listed (Some (NotesStore._query (NotesStore.store p))) (NotesStore.world p)))).
Proof.
  intros Hl. rewrite refresh_run. cbv zeta. rewrite Hl.
  cbn [createLocalMock NotesAPI.list]. now rewrite listed_run.
Qed.

Lemma loaded_twice w : loaded (snd (loaded w)) = (fst (loaded w), snd (loaded w)).
Proof. apply loaded_array, storage_loaded. Qed.

(** X14.  A store built without a base address works on the local store
    and never calls [fetch]: [refresh], [setQuery], [loadOne], [create],
    [update] and [remove] leave the count of requests as it is. *)
Theorem store_without_base_stays_offline (fetch : Network) (p : NotesStore.Page) :
  NotesStore.api (NotesStore.store p) = getNotesAPI fetch EmptyString ->
  let sent_after (p' : NotesStore.Page) := requests (NotesStore.world p') in
  sent_after (snd (NotesStore.refresh p)) = sent_after p /\
  (forall q, sent_after (snd (NotesStore.setQuery q p)) = sent_after p) /\
  (forall i, sent_after (snd (NotesStore.loadOne i p)) = sent_after p) /\
  (forall input, sent_after (snd (NotesStore.create input p)) = sent_after p) /\
  (forall i input, sent_after (snd (NotesStore.update i input p)) = sent_after p) /\
  (forall i, sent_after (snd (NotesStore.remove i p)) = sent_after p).
Proof.
  intros Hapi sent_after. subst sent_after. cbv beta.
  change (getNotesAPI fetch EmptyString) with createLocalMock in Hapi.
  assert (Hr : forall p', local_page p' ->
             requests (NotesStore.world (snd (NotesStore.refresh p')))
             = requests (NotesStore.world p')).
  { intros p' Hl. rewrite (refresh_local p' Hl). cbn [snd NotesStore.world].
    apply loaded_requests. }
  split; [now apply Hr|]. split; [|split; [|split; [|split]]].
  - intros q. unfold NotesStore.setQuery, bind, NotesStore.set_query,
      NotesStore.refresh_called, ret.
    cbn [NotesStore.world NotesStore.store NotesStore.heard NotesStore.api
           NotesStore._query].
    rewrite Hapi. cbn [createLocalMock NotesAPI.list]. rewrite list_run.
    cbn [snd NotesStore.world]. apply loaded_requests.
  - intros i. unfold NotesStore.loadOne, bind, NotesStore.this, NotesStore.await.
    rewrite Hapi. cbn [createLocalMock NotesAPI.get]. rewrite get_run.
    cbn [snd NotesStore.world]. apply loaded_requests.
  - intros input. unfold NotesStore.create.
    change (bind NotesStore.this _ p)
      with (bind (NotesStore.await (NotesAPI.create (NotesStore.api (NotesStore.store p)) input))
              (fun _ => NotesStore.refresh) p).
    rewrite mutate_then_refresh, Hapi. cbn [createLocalMock NotesAPI.create].
    rewrite create_run. cbv zeta. rewrite Hr by exact Hapi.
    cbn [with_world NotesStore.world with_storage requests]. now rewrite loaded_requests.
  - intros i input. unfold NotesStore.update.
    change (bind NotesStore.this _ p)
      with (bind (NotesStore.await (NotesAPI.update (NotesStore.api (NotesStore.store p)) i input))
              (fun _ => NotesStore.refresh) p).
    rewrite mutate_then_refresh, Hapi. cbn [createLocalMock NotesAPI.update].
    rewrite update_run. cbv zeta.
    destruct (list_find _ _) as [[idx old]|].
    + rewrite Hr by exact Hapi.
      cbn [with_world NotesStore.world with_storage ticked requests].
      now rewrite loaded_requests.
    + cbn [snd with_world NotesStore.world]. apply loaded_requests.
  - intros i. unfold NotesStore.remove.
    change (bind NotesStore.this _ p)
      with (bind (NotesStore.await (NotesAPI.remove (NotesStore.api (NotesStore.store p)) i))
              (fun _ => NotesStore.refresh) p).
    rewrite mutate_then_refresh, Hapi. cbn [createLocalMock NotesAPI.remove].
    rewrite remove_run. rewrite Hr by exact Hapi.
    cbn [with_world NotesStore.world with_storage requests]. now rewrite loaded_requests.
Qed.

Lemma store_without_base_stays_offline_witness :
  let p := NotesStore.mkPage fresh_browser (NotesStore.new net404 EmptyString) [] in
  requests (NotesStore.world (snd (NotesStore.refresh p))) = requests (NotesStore.world p).
Proof.
  intros p.
  exact (proj1 (store_without_base_stays_offline net404 p eq_refl)).
Defined.


(** The query scenario on the local store: a listener is registered, the
    query is set to ["tips"]; when [setQuery] returns the cache is still
    empty and the listener was not called, and once the rest of [refresh]
    has run the cache holds the one matching note and the listener was
    called once. *)
Example setQuery_then_rest :
  let p0 := NotesStore.mkPage fresh_browser (NotesStore.new offline EmptyString) [] in
  let p1 := snd (NotesStore.subscribe 1%nat p0) in
  let n := tips "11111111-1111-4111-9111-111111111111" 1000 in
  let p2 := snd (NotesStore.setQuery "tips" p1) in
  cache p2 = [] /\ NotesStore.heard p2 = [] /\
  match fst (NotesStore.setQuery "tips" p1) with
  | Ok rest =>
      cache (snd (rest p2)) = [n] /\
      NotesStore.heard (snd (rest p2)) = [Called 1%nat [n]]
  | Throw _ => False
  end.
Proof. vm_compute. repeat split. Qed.

Lemma loadOne_local i p :
  local_page p ->
  NotesStore.loadOne i p =
  (Ok (List.find (fun n => bool_decide (Note.id n = i)) (fst (loaded (NotesStore.world p)))),
   with_world (snd (loaded (NotesStore.world p))) p).
Proof.
  intros Hl. unfold NotesStore.loadOne, bind, NotesStore.this, NotesStore.await.
  rewrite Hl. cbn [createLocalMock NotesAPI.get]. now rewrite get_run.
Qed.

(** X16.  On the local backend every note of the cache can be loaded:
    after a [refresh], [loadOne] on the id of a cached note returns a
    stored note with that id, and changes neither the cache nor the
    listeners nor the storage, and calls no listener. *)
Theorem cached_notes_can_be_loaded (p : NotesStore.Page) (n : Note) :
  local_page p ->
  let p1 := snd (NotesStore.refresh p) in
  In n (cache p1) ->
  exists n', NotesStore.loadOne (Note.id n) p1 = (Ok (Some n'), p1) /\
             Note.id n' = Note.id n /\ In n' (collection (NotesStore.world p1)).
Proof.
  intros Hl p1. subst p1. rewrite (refresh_local p Hl). cbn [snd cache].
  set (w := NotesStore.world p). set (l := listed _ w).
  cbn [with_notes NotesStore.store NotesStore._notes]. intros Hin.
  apply listed_spec in Hin as [Hin _].
  rewrite loadOne_local by exact Hl. cbn [NotesStore.world].
  rewrite loaded_twice. cbn [fst snd with_world NotesStore.world NotesStore.store
                               NotesStore.heard].
  destruct (List.find _ (fst (loaded w))) as [n'|] eqn:Hf.
  - exists n'. destruct (find_some _ _ Hf) as [Hin' Hid%bool_decide_eq_true].
    split; [reflexivity|]. split; [exact Hid|].
    unfold collection. now rewrite storage_loaded.
  - exfalso. exact (proj1 (find_none_iff _ _) Hf n Hin eq_refl).
Qed.

Lemma cached_notes_can_be_loaded_witness :
  let p := NotesStore.mkPage fresh_browser (NotesStore.new offline EmptyString) [] in
  let n := tips "11111111-1111-4111-9111-111111111111" 1000 in
  let p1 := snd (NotesStore.refresh p) in
  exists n', NotesStore.loadOne (Note.id n) p1 = (Ok (Some n'), p1) /\
             Note.id n' = Note.id n /\ In n' (collection (NotesStore.world p1)).
Proof.
  intros p n p1. apply (cached_notes_can_be_loaded p n).
  - reflexivity.
  - vm_compute. right. now left.
Defined.

Lemma mutation_run {A} (op : NotesAPI.t -> M World A) p :
  bind NotesStore.this
    (fun s => bind (NotesStore.await (op (NotesStore.api s))) (fun _ => NotesStore.refresh)) p
  = match op (NotesStore.api (NotesStore.store p)) (NotesStore.world p) with
    | (Ok _, w1) => NotesStore.refresh (with_world w1 p)
    | (Throw e, w1) => (Throw e, with_world w1 p)
    end.
Proof.
  change (bind NotesStore.this _ p)
    with (bind (NotesStore.await (op (NotesStore.api (NotesStore.store p))))
            (fun _ => NotesStore.refresh) p).
  apply mutate_then_refresh.
Qed.

(** X17.  On the local backend [remove id] of the store always returns;
    afterwards no note of the cache and no stored note has that id, and
    every registered listener was called exactly once, with the new
    cache. *)
Theorem store_remove_clears_cache (p : NotesStore.Page) (i : NoteID) :
  local_page p ->
  let p' := snd (NotesStore.remove i p) in
  fst (NotesStore.remove i p) = Ok tt /\
  (forall n, In n (cache p') -> Note.id n <> i) /\
  (forall n, In n (collection (NotesStore.world p')) -> Note.id n <> i) /\
  NotesStore.heard p'
    = NotesStore.heard p ++ told (NotesStore.listeners (NotesStore.store p)) (cache p').
Proof.
  intros Hl p'. subst p'. unfold NotesStore.remove.
  rewrite (mutation_run (fun a => NotesAPI.remove a i)), Hl.
  cbn [createLocalMock NotesAPI.remove]. rewrite remove_run.
  set (kept := List.filter _ _). set (w1 := with_storage (NoteArray kept) _).
  rewrite (refresh_local (with_world w1 p)) by exact Hl.
  assert (Hw : loaded w1 = (kept, w1)) by (now apply loaded_array).
  assert (Hk : forall n, In n kept -> Note.id n <> i).
  { intros n [_ Hn]%filter_In Hid. now rewrite bool_decide_eq_true_2 in Hn. }
  cbn [fst snd cache with_world with_notes NotesStore.world NotesStore.store
         NotesStore._notes NotesStore._query NotesStore.listeners NotesStore.heard].
  rewrite Hw. cbn [snd]. split; [reflexivity|]. split; [|split; [|reflexivity]].
  - intros n [Hin _]%listed_spec. rewrite Hw in Hin. now apply Hk.
  - exact Hk.
Qed.

Lemma store_remove_clears_cache_witness :
  let p := NotesStore.mkPage fresh_browser (NotesStore.new offline EmptyString) [] in
  fst (NotesStore.remove "00000000-0000-4000-8000-000000000000" p) = Ok tt.
Proof.
  intros p.
  exact (proj1 (store_remove_clears_cache p "00000000-0000-4000-8000-000000000000" eq_refl)).
Defined.

(** X18.  On the local backend a second [refresh] finds what the first
    one found: same cache, same browser state. *)
Theorem refresh_twice_same_cache (p : NotesStore.Page) :
  local_page p ->
  let p1 := snd (NotesStore.refresh p) in
  let p2 := snd (NotesStore.refresh p1) in
  cache p2 = cache p1 /\ NotesStore.world p2 = NotesStore.world p1.
Proof.
  intros Hl p1 p2. subst p2 p1. rewrite (refresh_local p Hl). cbn [snd].
  rewrite refresh_local by exact Hl.
  cbn [snd cache with_notes NotesStore.world NotesStore.store NotesStore._notes
         NotesStore._query].
  rewrite loaded_twice. cbn [snd]. split; [|reflexivity].
  unfold listed. rewrite !list_run, loaded_twice. reflexivity.
Qed.

Lemma refresh_twice_same_cache_witness :
  let p := NotesStore.mkPage fresh_browser (NotesStore.new offline EmptyString) [] in
  let p1 := snd (NotesStore.refresh p) in
  let p2 := snd (NotesStore.refresh p1) in
  cache p2 = cache p1 /\ NotesStore.world p2 = NotesStore.world p1.
Proof.
  intros p. exact (refresh_twice_same_cache p eq_refl).
Defined.

(** X19.  On the local backend [create] of the store always returns, and
    the note it stored shows in the cache exactly when it matches the
    active query; every registered listener was called exactly once,
    with the new cache. *)
Theorem created_note_shows_when_it_matches (p : NotesStore.Page) (input : CreateNoteInput.t) :
  local_page p ->
  exists n w1 p',
    LocalMock.create input (NotesStore.world p) = (Ok n, w1) /\
    NotesStore.create input p = (Ok tt, p') /\
    NotesStore.world p' = w1 /\
    (In n (cache p') <-> wanted (Some (NotesStore._query (NotesStore.store p))) n) /\
    NotesStore.heard p'
      = NotesStore.heard p ++ told (NotesStore.listeners (NotesStore.store p)) (cache p').
Proof.
  intros Hl. pose proof (create_run input (NotesStore.world p)) as Hc. cbv zeta in Hc.
  set (n := Note.mk _ _ _ _ _ _) in Hc.
  set (w2 := rolled 31 (ticked 1 (NotesStore.world p))) in Hc.
  set (w1 := with_storage (NoteArray (n :: fst (loaded w2))) (snd (loaded w2))) in Hc.
  assert (Hw : loaded w1 = (n :: fst (loaded w2), w1)) by (now apply loaded_array).
  set (q := Some (NotesStore._query (NotesStore.store p))).
  exists n, w1,
    (NotesStore.mkPage w1 (with_notes (listed q w1) (NotesStore.store p))
       (NotesStore.heard p ++ told (NotesStore.listeners (NotesStore.store p)) (listed q w1))).
  split; [exact Hc|]. split.
  - unfold NotesStore.create.
    rewrite (mutation_run (fun a => NotesAPI.create a input)), Hl.
    cbn [createLocalMock NotesAPI.create]. rewrite Hc.
    rewrite (refresh_local (with_world w1 p)) by exact Hl.
    cbn [with_world NotesStore.world NotesStore.store NotesStore.heard].
    now rewrite Hw.
  - cbn [cache with_notes NotesStore.world NotesStore.store
           NotesStore._notes NotesStore.heard].
    split; [reflexivity|]. split; [|reflexivity].
    rewrite listed_spec, Hw. cbn [fst]. split; [tauto|].
    intros H. split; [now left | exact H].
Qed.

Lemma created_note_shows_when_it_matches_witness :
  let p := NotesStore.mkPage fresh_browser (NotesStore.new offline EmptyString) [] in
  let input := CreateNoteInput.mk "T" "C" [] in
  exists n w1 p',
    LocalMock.create input (NotesStore.world p) = (Ok n, w1) /\
    NotesStore.create input p = (Ok tt, p') /\
    NotesStore.world p' = w1 /\
    (In n (cache p') <-> wanted (Some (NotesStore._query (NotesStore.store p))) n) /\
    NotesStore.heard p'
      = NotesStore.heard p ++ told (NotesStore.listeners (NotesStore.store p)) (cache p').
Proof.
  intros p input. exact (created_note_shows_when_it_matches p input eq_refl).
Defined.

(** X20.  On the local backend, [update] of the store on an id that no
    stored note has throws "Note not found", leaves the cache and the
    listeners as they were and calls no listener.  When the storage holds
    a collection the whole page is left as it was; when the slot holds no
    collection, the storage is reseeded before the error is thrown, for
    every id that is not one of the two new ones. *)
Theorem store_update_unknown_id_tells_nobody
    (p : NotesStore.Page) (i : NoteID) (input : UpdateNoteInput.t) :
  local_page p ->
  let w := NotesStore.world p in
  (forall arr, storage w = NoteArray arr ->
     (forall n, In n arr -> Note.id n <> i) ->
     NotesStore.update i input p = (Throw NoteNotFound, p)) /\
  (corrupt (storage w) ->
     (forall n, In n (demo w) -> Note.id n <> i) ->
     NotesStore.update i input p = (Throw NoteNotFound, with_world (reseeded w) p)).
Proof.
  intros Hl w. subst w.
  assert (E : NotesStore.update i input p =
              match LocalMock.update i input (NotesStore.world p) with
              | (Ok _, w1) => NotesStore.refresh (with_world w1 p)
              | (Throw e, w1) => (Throw e, with_world w1 p)
              end).
  { unfold NotesStore.update.
    rewrite (mutation_run (fun a => NotesAPI.update a i input)), Hl. reflexivity. }
  rewrite E. split.
  - intros arr Hst Habs.
    rewrite update_run, (loaded_array _ _ Hst). cbn [fst snd]. cbv zeta.
    rewrite find_first_absent by exact Habs.
    unfold with_world. now rewrite page_eta.
  - intros Hc Habs.
    rewrite update_run, (loaded_corrupt _ Hc). cbn [fst snd]. cbv zeta.
    now rewrite find_first_absent by exact Habs.
Qed.

Lemma store_update_unknown_id_tells_nobody_witness :
  let a := Note.mk "a" "T" "C" [] 5 5 in
  let w := mkWorld (NoteArray [a]) (fun _ => 9) 0 (fun _ => 0) 0 0 in
  let p := NotesStore.mkPage w (NotesStore.new offline EmptyString) [] in
  let p0 := NotesStore.mkPage fresh_browser (NotesStore.new offline EmptyString) [] in
  let input := UpdateNoteInput.mk (Some "U") None None in
  NotesStore.update "zz" input p = (Throw NoteNotFound, p) /\
  NotesStore.update "zz" input p0
  = (Throw NoteNotFound, with_world (reseeded fresh_browser) p0).
Proof.
  intros a w p p0 input. split.
  - apply (proj1 (store_update_unknown_id_tells_nobody p "zz" input eq_refl) [a]).
    + reflexivity.
    + intros n [<-|[]]. discriminate.
  - apply (proj2 (store_update_unknown_id_tells_nobody p0 "zz" input eq_refl)).
    + exact I.
    + intros n Hn Hid. apply demo_ids in Hn. rewrite Hid in Hn.
      vm_compute in Hn. destruct Hn as [Hn|Hn]; discriminate Hn.
Defined.

(** X21.  While the network is down, a store that was configured with a
    base address shows what a store without one shows: [refresh] gives
    the same cache, calls the same listeners and leaves the same
    storage; only the count of requests differs. *)
Theorem configured_store_offline_shows_local_cache
    (fetch : Network) (base : string) (p : NotesStore.Page) :
  always_fails fetch ->
  truthy base = true ->
  NotesStore.api (NotesStore.store p) = getNotesAPI fetch base ->
  let local := with_store (NotesStore.mk createLocalMock (cache p)
                             (NotesStore._query (NotesStore.store p))
                             (NotesStore.listeners (NotesStore.store p))) p in
  let p1 := snd (NotesStore.refresh p) in
  let l1 := snd (NotesStore.refresh local) in
  fst (NotesStore.refresh p) = Ok tt /\
  cache p1 = cache l1 /\
  NotesStore.heard p1 = NotesStore.heard l1 /\
  NotesStore.world p1 = sent (NotesStore.world l1).
Proof.
  intros Hnet Hbase Hapi local p1 l1. subst p1 l1.
  unfold getNotesAPI in Hapi. rewrite Hbase in Hapi.
  rewrite (refresh_local local) by reflexivity.
  rewrite refresh_run. cbv zeta. rewrite Hapi.
  rewrite (list_falls_back fetch base Hnet), listed_run.
  unfold after_request.
  cbn [fst snd local cache with_store with_notes NotesStore.world NotesStore.store
         NotesStore._notes NotesStore._query NotesStore.listeners NotesStore.heard].
  repeat split.
Qed.

Lemma configured_store_offline_shows_local_cache_witness :
  let p := NotesStore.mkPage fresh_browser
             (NotesStore.new offline "https://notes.example") [] in
  fst (NotesStore.refresh p) = Ok tt.
Proof.
  intros p.
  refine (proj1 (configured_store_offline_shows_local_cache offline
                   "https://notes.example" p _ eq_refl eq_refl)).
  intros A k req. exact I.
Defined.

(** ** More on the collection *)

(** X22.  [update] never adds or removes a note and never changes an id:
    on a stored collection the ids after the call are the ids before it,
    in the same order, whether or not the id was found. *)
Theorem update_keeps_the_ids
    (w : World) (arr : Notes) (i : NoteID) (input : UpdateNoteInput.t) :
  storage w = NoteArray arr ->
  ids (collection (snd (LocalMock.update i input w))) = ids arr.
Proof.
  intros Hst. rewrite update_run, (loaded_array _ _ Hst). cbn [fst snd]. cbv zeta.
  destruct (list_find _ arr) as [[idx old]|] eqn:Hf; cbn [snd].
  - apply list_find_Some in Hf as (Hlook & _ & _).
    unfold collection. cbn [with_storage storage].
    now apply (ids_insert arr idx old).
  - unfold collection. now rewrite Hst.
Qed.

Lemma update_keeps_the_ids_witness :
  let a := Note.mk "a" "T" "C" [] 5 5 in
  let b := Note.mk "b" "U" "D" [] 6 6 in
  let w := mkWorld (NoteArray [a; b]) (fun _ => 9) 0 (fun _ => 0) 0 0 in
  ids (collection (snd (LocalMock.update "b" (UpdateNoteInput.mk (Some "V") None None) w)))
  = ids [a; b].
Proof.
  intros a b w.
  apply (update_keeps_the_ids w [a; b] "b" (UpdateNoteInput.mk (Some "V") None None)).
  reflexivity.
Defined.

Lemma sapp_nil_r s : s +:+ EmptyString = s.
Proof.
  induction s as [|c s IH]; [reflexivity|].
  change (String c (s +:+ EmptyString) = String c s). now f_equal.
Qed.

(** X23.  A stored note is found under its own title, its own content
    and each of its tags, in whatever letter case they are typed. *)
Theorem note_found_by_its_own_text (w : World) (arr : Notes) (n : Note) (q : string) :
  storage w = NoteArray arr ->
  In n arr ->
  (toLowerCase q = toLowerCase (Note.title n) \/
   toLowerCase q = toLowerCase (Note.content n) \/
   exists t, In t (Note.tags n) /\ toLowerCase q = toLowerCase t) ->
  In n (listed (Some q) w).
Proof.
  intros Hst Hin Hq. apply listed_spec. rewrite (loaded_array _ _ Hst). cbn [fst].
  split; [exact Hin|]. cbn [wanted]. right.
  assert (Hs : forall s, toLowerCase q = toLowerCase s -> lowered_in q s).
  { intros s E. exists EmptyString, EmptyString. rewrite E.
    change (toLowerCase s = toLowerCase s +:+ EmptyString). now rewrite sapp_nil_r. }
  destruct Hq as [E|[E|(t & Ht & E)]]; [left | right; left | right; right]; eauto.
Qed.

Lemma note_found_by_its_own_text_witness :
  let a := Note.mk "a" "Shopping List" "milk" ["home"] 5 5 in
  let w := mkWorld (NoteArray [a]) (fun _ => 9) 0 (fun _ => 0) 0 0 in
  In a (listed (Some "HOME") w).
Proof.
  intros a w. apply (note_found_by_its_own_text w [a] a "HOME").
  - reflexivity.
  - now left.
  - right; right. exists "home". split; [now left | reflexivity].
Defined.
